(** * FIFO profit-and-loss matching: a shallow embedding of [main.py]

    The development follows [OrderManagementSystem] of [main.py]:
    [place_order] (the matching engine with its [while] loop),
    [close_order] (the closed-trade line) and the part of [run] that feeds
    the parsed rows to [place_order].

    Python values are modelled as the interpreter has them: an [int] is an
    unbounded integer ([Z]), a [float] is an IEEE 754 binary64 number (the
    primitive floats of the kernel, whose operations round to nearest, ties
    to even, as CPython's do), a [str] is a [string].  An exception that the
    code does not catch ends the call, and with it the process; it is the
    [Raise] outcome of the small error monad below, which keeps neither the
    state nor the lines printed before the exception.

    The [dict] of an order is mutated in place while it is matched.  [run]
    builds one [dict] per row and hands it to [place_order] once, so no
    [dict] is reachable from two places; orders are modelled as values, and
    a mutation as the replacement of the order where it stands. *)

From Stdlib Require Import ZArith Ascii String Floats.
From Equations Require Import Equations.
From Equations.Prop Require Import Logic.
From stdpp Require Import gmap strings pretty list sorting.

Local Open Scope string_scope.
Local Open Scope list_scope.
Local Open Scope Z_scope.

(** ** Outcomes of a call *)

Inductive exn : Set := OverflowError | IndexError.

Inductive result (A : Type) : Type :=
| Ok (a : A)
| Raise (e : exn).
Arguments Ok {A} a.
Arguments Raise {A} e.

(** Sequencing: an exception cuts the rest short. *)
#[global] Instance result_bind : MBind result := fun A B k r =>
  match r with
  | Ok a => k a
  | Raise e => Raise e
  end.

(** ** Python numbers *)

(** [float(n)] for an [int] [n], as the interpreter converts the left
    operand of [int * float]: the nearest binary64 number, ties to even, and
    [OverflowError] when that would be an infinity. *)
Definition float_of_int (n : Z) : result float :=
  match binary_normalize prec emax n 0 false with
  | S754_infinity _ => Raise OverflowError
  | sf => Ok (SF2Prim sf)
  end.

(** [n * x] for an [int] [n] and a [float] [x]. *)
Definition int_mul_float (n : Z) (x : float) : result float :=
  f ← float_of_int n; Ok (PrimFloat.mul f x).

(** [n / d] rounded to the nearest integer, ties to the even one
    (for [0 <= n] and [0 < d]). *)
Definition div_half_even (n d : Z) : Z :=
  let q := n / d in
  match (2 * (n mod d) ?= d) with
  | Lt => q
  | Gt => q + 1
  | Eq => if Z.even q then q else q + 1
  end.

(** The magnitude of a finite binary64 number [m * 2^e], in hundredths,
    correctly rounded. *)
Definition hundredths (m : positive) (e : Z) : Z :=
  if 0 <=? e then Z.pos m * 2 ^ e * 100
  else div_half_even (Z.pos m * 100) (2 ^ (- e)).

Definition digit (d : Z) : string :=
  String (pretty_N_char (Z.to_N d)) EmptyString.

Definition sign_str (s : bool) : string := if s then "-" else "".

(** [f'{x:.2f}']: fixed-point notation with two digits after the point,
    correctly rounded from the exact binary value; [nan] and the infinities
    are spelled out. *)
Definition format_2f (x : float) : string :=
  match Prim2SF x with
  | S754_nan => "nan"
  | S754_infinity s => sign_str s +:+ "inf"
  | S754_zero s => sign_str s +:+ "0.00"
  | S754_finite s m e =>
      let c := hundredths m e in
      sign_str s +:+ pretty (c / 100) +:+ "."
        +:+ digit (c / 10 mod 10) +:+ digit (c mod 10)
  end.

(** ** Orders and the management system *)

(** A row of the input as [run] hands it to [place_order]: a [dict] with
    the keys [TIME], [SYMBOL], [SIDE], [PRICE] and [QUANTITY]. *)
Record Order : Type := {
  TIME : Z;
  SYMBOL : string;
  SIDE : string;
  PRICE : float;
  QUANTITY : Z
}.

(** [order['QUANTITY'] -= quantity] *)
Definition sub_QUANTITY (order : Order) (quantity : Z) : Order :=
  {| TIME := TIME order; SYMBOL := SYMBOL order; SIDE := SIDE order;
     PRICE := PRICE order; QUANTITY := QUANTITY order - quantity |}.

(** [self.queue] is a [defaultdict(deque)], [self.total] a [float]. *)
Record OrderManagementSystem : Type := {
  queue : gmap string (list Order);
  total : float
}.

(** [__init__] *)
Definition init : OrderManagementSystem :=
  {| queue := ∅; total := PrimFloat.zero |}.

(** [self.queue[symbol]]: a missing key reads as the empty deque. *)
Definition backlog (self : OrderManagementSystem) (symbol : string) : list Order :=
  default [] (queue self !! symbol).

(** ** [close_order] *)

Definition opposite_side (side : string) : string :=
  if String.eqb side "B" then "S" else "B".

(** The nine pieces of the f-string, in the order they are written. *)
Definition close_order_fields (order head : Order) (quantity : Z)
    (profit_and_loss : float) : list string :=
  [ pretty (TIME head); pretty (TIME order); SYMBOL order; pretty quantity;
    format_2f profit_and_loss; SIDE head; opposite_side (SIDE head);
    format_2f (PRICE head); format_2f (PRICE order) ].

(** [pending[0]] raises [IndexError] on an empty deque. *)
Definition close_order (order : Order) (pending : list Order) (quantity : Z)
    (profit_and_loss : float) : result string :=
  match pending with
  | [] => Raise IndexError
  | head :: _ =>
      Ok (pretty (TIME head) +:+ ","
          +:+ pretty (TIME order) +:+ ","
          +:+ SYMBOL order +:+ ","
          +:+ pretty quantity +:+ "," +:+ format_2f profit_and_loss +:+ ","
          +:+ SIDE head +:+ ","
          +:+ opposite_side (SIDE head) +:+ ","
          +:+ format_2f (PRICE head) +:+ ","
          +:+ format_2f (PRICE order))
  end.

(** ** The matching loop of [place_order] *)

(** What the loop reads and writes: the deque [pending], the incoming
    [order], [self.total] and the lines printed so far. *)
Record loop_state : Type := {
  ls_pending : list Order;
  ls_order : Order;
  ls_total : float;
  ls_printed : list string
}.

(** [while pending and order.get('QUANTITY')] *)
Definition loop_cond (st : loop_state) : bool :=
  match ls_pending st with
  | [] => false
  | _ :: _ => negb (QUANTITY (ls_order st) =? 0)
  end.

(** One pass through the body of the loop. *)
Definition loop_body (st : loop_state) : result loop_state :=
  match ls_pending st with
  | [] => Raise IndexError
  | head :: rest =>
      let order := ls_order st in
      let quantity := Z.min (QUANTITY order) (QUANTITY head) in
      profit_and_loss ←
        int_mul_float quantity (PrimFloat.sub (PRICE order) (PRICE head));
      let total' :=
        if String.eqb (SIDE order) "B"
        then PrimFloat.sub (ls_total st) profit_and_loss
        else PrimFloat.add (ls_total st) profit_and_loss in
      line ← close_order order (ls_pending st) quantity profit_and_loss;
      let head' := sub_QUANTITY head quantity in
      let order' := sub_QUANTITY order quantity in
      Ok {| ls_pending := if QUANTITY head' =? 0 then rest else head' :: rest;
            ls_order := order';
            ls_total := total';
            ls_printed := ls_printed st ++ [line] |}
  end.

(** The quantity that bounds the number of passes. *)
Definition loop_measure (st : loop_state) : nat :=
  (2 * length (ls_pending st)
   + (if (QUANTITY (ls_order st) =? 0)%Z then 0 else 1))%nat.

(** A pass that completes lowers the measure: either the head of the deque
    is popped, or the incoming order is used up. *)
Ltac loop_measure_decreases :=
  unfold loop_cond, loop_body, loop_measure;
  destruct (ls_pending _) as [|?head ?rest]; [discriminate|];
  let Hq := fresh "Hq" in
  intros Hq; apply negb_true_iff, Z.eqb_neq in Hq;
  destruct (int_mul_float _ _); [|discriminate];
  intros [= <-]; cbn;
  repeat match goal with
         | |- context [Z.eqb ?a ?b] => destruct (Z.eqb_spec a b)
         end;
  cbn [length]; lia.

Equations? while_loop (st : loop_state) : result loop_state
  by wf (loop_measure st) lt :=
while_loop st with inspect (loop_cond st) => {
  | exist _ false _ => Ok st
  | exist _ true Hc with inspect (loop_body st) => {
      | exist _ (Raise e) _ => Raise e
      | exist _ (Ok st') Hb => while_loop st' } }.
Proof. revert Hc Hb. loop_measure_decreases. Qed.

(** ** [place_order] and [run] *)

Definition set_backlog (self : OrderManagementSystem) (symbol : string)
    (pending : list Order) (total' : float) : OrderManagementSystem :=
  {| queue := <[symbol := pending]> (queue self); total := total' |}.

(** The side test of the first [if] is Python's [is] on the two [SIDE]
    strings.  The strings come from the rows of [csv.DictReader]; for the
    one-character sides [B] and [S] of the input format CPython hands out
    one shared object per character, so identity and equality of the
    values coincide; the test is modelled by equality of the values.  Two
    equal sides of more than one character are two objects, for which the
    test of the code fails where this one holds: a statement that rests on
    the test holding is made for the sides [B] and [S]. *)
Definition same_side (order head : Order) : bool := String.eqb (SIDE order) (SIDE head).

Definition place_order (self : OrderManagementSystem) (order : Order)
    : result (OrderManagementSystem * list string) :=
  let pending := backlog self (SYMBOL order) in
  match pending with
  | [] => Ok (set_backlog self (SYMBOL order) (pending ++ [order]) (total self), [])
  | head :: _ =>
      if same_side order head
      then Ok (set_backlog self (SYMBOL order) (pending ++ [order]) (total self), [])
      else
        st ← while_loop {| ls_pending := pending; ls_order := order;
                           ls_total := total self; ls_printed := [] |};
        let pending' :=
          if QUANTITY (ls_order st) =? 0 then ls_pending st
          else ls_pending st ++ [ls_order st] in
        Ok (set_backlog self (SYMBOL order) pending' (ls_total st), ls_printed st)
  end.

(** The [for] loop of [run] over the rows, once [TIME], [PRICE] and
    [QUANTITY] are converted: every row is placed in turn, the printed lines
    accumulate. *)
Fixpoint place_orders (self : OrderManagementSystem) (orders : list Order)
    : result (OrderManagementSystem * list string) :=
  match orders with
  | [] => Ok (self, [])
  | order :: orders' =>
      '(self', lines) ← place_order self order;
      '(self'', lines') ← place_orders self' orders';
      Ok (self'', lines ++ lines')
  end.

Definition header : string :=
  "OPEN_TIME,CLOSE_TIME,SYMBOL,QUANTITY,PNL,OPEN_SIDE,CLOSE_SIDE,OPEN_PRICE,CLOSE_PRICE".

(** [run] on the rows of an input file that could be opened: the header,
    the closed trades, and [self.total] as the value returned. *)
Definition run (self : OrderManagementSystem) (orders : list Order)
    : result (float * list string) :=
  '(self', lines) ← place_orders self orders;
  Ok (total self', header :: lines).

(** [main]: [run] on a fresh system, then the total that [run] returns,
    printed with two decimals. *)
Definition main (orders : list Order) : result (list string) :=
  '(t, out) ← run init orders;
  Ok (out ++ [format_2f t]).

(** ** Vocabulary of the statements *)

(** Two floats have the same value: they are identical, or they compare
    equal with [==] (which also identifies the two zeros). *)
Definition float_same (x y : float) : Prop :=
  x = y \/ PrimFloat.eqb x y = true.

(** Neither [nan] nor an infinity. *)
Definition float_finite (x : float) : bool :=
  match Prim2SF x with
  | S754_nan | S754_infinity _ => false
  | _ => true
  end.

(** The prices of the buy leg and of the sell leg of a match of the
    incoming [order] against the resting [head]: the incoming order is the
    buy leg when its side is [B]. *)
Definition buy_price (order head : Order) : float :=
  if String.eqb (SIDE order) "B" then PRICE order else PRICE head.

Definition sell_price (order head : Order) : float :=
  if String.eqb (SIDE order) "B" then PRICE head else PRICE order.

(** All the orders of a backlog are on one side (an empty backlog is). *)
Definition one_side (pending : list Order) : Prop :=
  exists side, Forall (fun o => SIDE o = side) pending.

(** Side purity of the whole store. *)
Definition side_pure (self : OrderManagementSystem) : Prop :=
  forall symbol, one_side (backlog self symbol).

(** The sum of the remaining quantities of a backlog. *)
Fixpoint sum_quantities (pending : list Order) : Z :=
  match pending with
  | [] => 0
  | o :: rest => QUANTITY o + sum_quantities rest
  end.

(** No resting order of any backlog has a negative quantity. *)
Definition nonneg_backlogs (self : OrderManagementSystem) : Prop :=
  forall symbol, Forall (fun o => 0 <= QUANTITY o) (backlog self symbol).

(** Every resting order of every backlog has a positive quantity. *)
Definition positive_backlogs (self : OrderManagementSystem) : Prop :=
  forall symbol, Forall (fun o => 0 < QUANTITY o) (backlog self symbol).

(** [o'] is the order [o] with a quantity that did not grow. *)
Definition shrunk (o' o : Order) : Prop :=
  TIME o' = TIME o /\ SYMBOL o' = SYMBOL o /\ SIDE o' = SIDE o /\
  PRICE o' = PRICE o /\ QUANTITY o' <= QUANTITY o.

(** A match made by a pass of the loop: the resting order at the front of
    the deque and the incoming order as the pass found them, the quantity
    matched and the profit or loss. *)
Record trade : Type := {
  resting : Order;
  incoming : Order;
  matched : Z;
  pnl : float
}.

(** The line printed for a match. *)
Definition trade_line (m : trade) : string :=
  String.concat ","
    (close_order_fields (incoming m) (resting m) (matched m) (pnl m)).

(** The invariant of the passes on quantities that are not negative: they
    stay so, and every order is one of the orders at the entry of the loop
    with a quantity that did not grow. *)
Definition shrinking (pending0 : list Order) (order0 : Order) (st : loop_state)
    : Prop :=
  Forall (fun o => 0 <= QUANTITY o) (ls_pending st) /\
  0 <= QUANTITY (ls_order st) /\
  shrunk (ls_order st) order0 /\
  Forall (fun o' => exists o, o ∈ pending0 /\ shrunk o' o) (ls_pending st).

(** A match that takes all of its resting order. *)
Definition in_full (m : trade) : Prop := matched m = QUANTITY (resting m).

(** A match of the incoming [order]: against what is left of it, for the
    smaller of the two quantities. *)
Definition match_of (order : Order) (m : trade) : Prop :=
  (exists quantity, incoming m = sub_QUANTITY order quantity) /\
  matched m = Z.min (QUANTITY (incoming m)) (QUANTITY (resting m)).

(** The matches of a run of the loop, read off the passes.  The i-th match
    is against the i-th resting order of the deque.  Either every match
    takes its resting order in full and the deque that remains is what was
    not matched; or every match but the last does, and what is left of the
    last resting order matched stays at the front, before what was not
    matched. *)
Definition fifo_matches (pending : list Order) (order : Order)
    (printed : list string) (st' : loop_state) (ms : list trade) : Prop :=
  ls_printed st' = printed ++ map trade_line ms /\
  map resting ms = take (length ms) pending /\
  Forall (match_of order) ms /\
  (Forall in_full ms /\ ls_pending st' = drop (length ms) pending
   \/ exists ms0 m,
        ms = ms0 ++ [m] /\ Forall in_full ms0 /\
        QUANTITY (resting m) - matched m <> 0 /\
        ls_pending st' =
          sub_QUANTITY (resting m) (matched m) :: drop (length ms) pending).

(** A decimal digit. *)
Definition is_digit (c : ascii) : bool :=
  match c with
  | "0" | "1" | "2" | "3" | "4" | "5" | "6" | "7" | "8" | "9" => true
  | _ => false
  end%char.

Fixpoint all_digits (s : string) : bool :=
  match s with
  | EmptyString => true
  | String c s' => is_digit c && all_digits s'
  end.

(** Digits, then a point, then exactly two digits and the end. *)
Fixpoint digits_point_2 (s : string) : bool :=
  match s with
  | EmptyString => false
  | String c s' =>
      if Ascii.eqb c "." then
        match s' with
        | String d1 (String d2 EmptyString) => is_digit d1 && is_digit d2
        | _ => false
        end
      else is_digit c && digits_point_2 s'
  end.

Definition starts_with_digit (s : string) : bool :=
  match s with
  | String c _ => is_digit c
  | EmptyString => false
  end.

(** A number written with exactly two fractional digits: an optional
    minus sign, at least one digit, the point, two digits. *)
Definition two_fraction_digits (s : string) : bool :=
  match s with
  | String "-" s' => starts_with_digit s' && digits_point_2 s'
  | _ => starts_with_digit s && digits_point_2 s
  end.

(** The profit or loss of a match is the quantity times the difference
    of the prices, as the pass computes it. *)
Definition priced (m : trade) : Prop :=
  int_mul_float (matched m) (PRICE (incoming m) - PRICE (resting m))%float
  = Ok (pnl m).

(** [self.total] after a match posted for an incoming order of the given
    side. *)
Definition post (side : string) (t : float) (m : trade) : float :=
  if String.eqb side "B" then (t - pnl m)%float else (t + pnl m)%float.

(** The quantity matched by a list of matches. *)
Fixpoint sum_matched (ms : list trade) : Z :=
  match ms with
  | [] => 0
  | m :: ms' => matched m + sum_matched ms'
  end.

(** The resting order of a match is an order of the deque, up to its
    quantity. *)
Definition rests_in (pending : list Order) (m : trade) : Prop :=
  exists o quantity, o ∈ pending /\ resting m = sub_QUANTITY o quantity.

(** What a run of the loop did, as a ledger of matches. *)
Definition ledger (st st' : loop_state) (ms : list trade) : Prop :=
  ls_printed st' = ls_printed st ++ map trade_line ms /\
  Forall priced ms /\
  Forall (match_of (ls_order st)) ms /\
  Forall (rests_in (ls_pending st)) ms /\
  ls_total st' = fold_left (post (SIDE (ls_order st))) ms (ls_total st) /\
  QUANTITY (ls_order st') = QUANTITY (ls_order st) - sum_matched ms /\
  sum_quantities (ls_pending st') = sum_quantities (ls_pending st) - sum_matched ms.

(** Every order rests under the key of its own symbol. *)
Definition symbols_consistent (self : OrderManagementSystem) : Prop :=
  forall symbol, Forall (fun o => SYMBOL o = symbol) (backlog self symbol).

(** The orders that rest, over all the backlogs. *)
Definition resting_count (self : OrderManagementSystem) : nat :=
  map_fold (fun _ pending n => (length pending + n)%nat) 0%nat (queue self).

(** Times that do not decrease along a list of orders. *)
Definition chronological (orders : list Order) : Prop :=
  StronglySorted (fun a b => TIME a <= TIME b) orders.

(** No resting order is later than [t], and every backlog is in the order
    of its times. *)
Definition in_time_order (self : OrderManagementSystem) (t : Z) : Prop :=
  forall symbol,
    chronological (backlog self symbol) /\
    Forall (fun o => TIME o <= t) (backlog self symbol).

(** Two loop states that differ in the total only. *)
Definition same_trades (st1 st2 : loop_state) : Prop :=
  ls_pending st1 = ls_pending st2 /\ ls_order st1 = ls_order st2 /\
  ls_printed st1 = ls_printed st2.

(** Two outcomes of the loop that are the same up to the total. *)
Definition same_outcome (r1 r2 : result loop_state) : Prop :=
  match r1, r2 with
  | Ok st1, Ok st2 => same_trades st1 st2
  | Raise e1, Raise e2 => e1 = e2
  | _, _ => False
  end.

(** The orders of one instrument. *)
Definition on_symbol (symbol : string) (orders : list Order) : list Order :=
  filter (fun o => SYMBOL o = symbol) orders.

(** The side of an order is one of the two of the input format. *)
Definition buy_or_sell (o : Order) : Prop := SIDE o = "B" \/ SIDE o = "S".

(** The quantity of an order as a position: long when bought, short when
    sold. *)
Definition signed (o : Order) : Z :=
  if String.eqb (SIDE o) "B" then QUANTITY o else - QUANTITY o.

(** The net position of a list of orders. *)
Fixpoint position (orders : list Order) : Z :=
  match orders with
  | [] => 0
  | o :: rest => signed o + position rest
  end.

(** A match for a positive quantity, no more than either order has. *)
Definition proper (m : trade) : Prop :=
  0 < matched m /\ matched m <= QUANTITY (resting m) /\
  matched m <= QUANTITY (incoming m).

(** The matches of an incoming order against a deque, read from the
    front.  A match is made only while the incoming order has quantity
    left; it is against the order at the front of the deque as it rests
    there, for the smaller of the two quantities, with the profit or loss
    that the pass computes; the next match is against the next resting
    order, for what is left of the incoming order. *)
Fixpoint matches_from (pending : list Order) (order : Order) (ms : list trade)
    {struct ms} : Prop :=
  match ms, pending with
  | [], _ => True
  | _ :: _, [] => False
  | m :: ms', head :: rest =>
      QUANTITY order <> 0 /\
      resting m = head /\ incoming m = order /\
      matched m = Z.min (QUANTITY order) (QUANTITY head) /\
      priced m /\
      matches_from rest (sub_QUANTITY order (matched m)) ms'
  end.

(** The matches of a run, call by call: the matches of a call are those
    of its order against the backlog of its symbol as the call finds it,
    the call prints their lines, and the next call starts from the state
    that this one leaves. *)
Fixpoint ledger_of (self : OrderManagementSystem) (orders : list Order)
    (mss : list (list trade)) : Prop :=
  match orders, mss with
  | [], [] => True
  | order :: orders', ms :: mss' =>
      matches_from (backlog self (SYMBOL order)) order ms /\
      exists self1,
        place_order self order = Ok (self1, map trade_line ms) /\
        ledger_of self1 orders' mss'
  | _, _ => False
  end.

(** What is left of a backlog: some of the orders of [before], each one
    once and in the order they had, each with a quantity that did not
    grow. *)
Definition remains_of (after before : list Order) : Prop :=
  exists kept, kept `sublist_of` before /\ Forall2 shrunk after kept.

(** The invariant of the passes on the deque as a sequence: what rests is
    what rested at the entry of the loop from some position on, order by
    order, each with a quantity that did not grow and is not negative. *)
Definition shrinking_in_place (pending0 : list Order) (order0 : Order)
    (st : loop_state) : Prop :=
  Forall (fun o => 0 <= QUANTITY o) (ls_pending st) /\
  0 <= QUANTITY (ls_order st) /\
  shrunk (ls_order st) order0 /\
  exists k, Forall2 shrunk (ls_pending st) (drop k pending0).

(** ** Sample data *)

(** An order on the symbol [X]. *)
Definition on_X (time : Z) (side : string) (price : float) (quantity : Z) : Order :=
  {| TIME := time; SYMBOL := "X"; SIDE := side; PRICE := price;
     QUANTITY := quantity |}.

(** The system with the given backlog for [X] and the given total. *)
Definition with_X (pending : list Order) (t : float) : OrderManagementSystem :=
  set_backlog init "X" pending t.

(** The loop state at the entry of the loop. *)
Definition enter_loop (pending : list Order) (order : Order) (t : float)
    : loop_state :=
  {| ls_pending := pending; ls_order := order; ls_total := t; ls_printed := [] |}.

(** * Properties *)

(** ** The embedding on sample runs *)

Example run_buy_then_sell :
  run init [on_X 1 "B" 10 100; on_X 2 "S" 12 100]
  = Ok (200%float, [header; "1,2,X,100,200.00,B,S,10.00,12.00"]).
Proof. vm_compute. reflexivity. Qed.

Example run_two_partial_sells :
  run init [on_X 1 "B" 10 100; on_X 2 "S" 12 40; on_X 3 "S" 9 60]
  = Ok (20%float,
        [header; "1,2,X,40,80.00,B,S,10.00,12.00";
         "1,3,X,60,-60.00,B,S,10.00,9.00"]).
Proof. vm_compute. reflexivity. Qed.

Example place_orders_sell_across_two_buys :
  place_orders init [on_X 1 "B" 10 50; on_X 2 "B" 11 30; on_X 3 "S" 12 60]
  = Ok (with_X [on_X 2 "B" 11 20] 110,
        ["1,3,X,50,100.00,B,S,10.00,12.00"; "2,3,X,10,10.00,B,S,11.00,12.00"]).
Proof. vm_compute. reflexivity. Qed.

Example place_orders_short_then_cover :
  place_orders init [on_X 1 "S" 12 10; on_X 2 "B" 10 25]
  = Ok (with_X [on_X 2 "B" 10 15] 20, ["1,2,X,10,-20.00,S,B,12.00,10.00"]).
Proof. vm_compute. reflexivity. Qed.

Example format_2f_rounds_half_even :
  map format_2f [0.125; 0.375; 2.5; -0.001; 1234.5678]%float
  = ["0.12"; "0.38"; "2.50"; "-0.00"; "1234.57"].
Proof. vm_compute. reflexivity. Qed.

Example float_of_int_overflows :
  float_of_int (2 ^ 1024) = Raise OverflowError /\
  float_of_int (2 ^ 53 + 1) = Ok 9007199254740992%float.
Proof. split; vm_compute; reflexivity. Qed.

(** ** The store of backlogs *)

Lemma backlog_set_eq (self : OrderManagementSystem) symbol pending t :
  backlog (set_backlog self symbol pending t) symbol = pending.
Proof. unfold backlog, set_backlog; cbn. now rewrite lookup_insert_eq. Qed.

Lemma backlog_set_ne (self : OrderManagementSystem) symbol symbol' pending t :
  symbol <> symbol' ->
  backlog (set_backlog self symbol pending t) symbol' = backlog self symbol'.
Proof.
  intros Hne. unfold backlog, set_backlog; cbn. now rewrite lookup_insert_ne.
Qed.

Lemma backlog_init symbol : backlog init symbol = [].
Proof. reflexivity. Qed.

(** ** One pass of the loop *)

Lemma close_order_concat order head rest quantity profit_and_loss :
  close_order order (head :: rest) quantity profit_and_loss =
  Ok (String.concat "," (close_order_fields order head quantity profit_and_loss)).
Proof. reflexivity. Qed.

(** The shape of a pass that completes. *)
Lemma loop_body_Ok (st st' : loop_state) :
  loop_body st = Ok st' ->
  exists head rest profit_and_loss,
    let order := ls_order st in
    let quantity := Z.min (QUANTITY order) (QUANTITY head) in
    ls_pending st = head :: rest /\
    int_mul_float quantity (PrimFloat.sub (PRICE order) (PRICE head))
      = Ok profit_and_loss /\
    st' = {| ls_pending :=
               if QUANTITY head - quantity =? 0 then rest
               else sub_QUANTITY head quantity :: rest;
             ls_order := sub_QUANTITY order quantity;
             ls_total :=
               if String.eqb (SIDE order) "B"
               then PrimFloat.sub (ls_total st) profit_and_loss
               else PrimFloat.add (ls_total st) profit_and_loss;
             ls_printed :=
               ls_printed st ++
               [String.concat ","
                  (close_order_fields order head quantity profit_and_loss)] |}.
Proof.
  unfold loop_body. destruct (ls_pending st) as [|head rest]; [discriminate|].
  destruct (int_mul_float _ _) as [pnl|] eqn:Hpnl; [|discriminate].
  cbn. intros [= <-]. exists head, rest, pnl. repeat split; assumption.
Qed.

Lemma float_of_int_Raise (n : Z) (e : exn) :
  float_of_int n = Raise e -> e = OverflowError.
Proof.
  unfold float_of_int. destruct (binary_normalize _ _ _ _ _); congruence.
Qed.

(** A pass fails only in the conversion of the matched quantity. *)
Lemma loop_body_Raise (st : loop_state) (e : exn) :
  loop_cond st = true -> loop_body st = Raise e ->
  e = OverflowError /\
  exists head rest,
    ls_pending st = head :: rest /\
    float_of_int (Z.min (QUANTITY (ls_order st)) (QUANTITY head))
      = Raise OverflowError.
Proof.
  unfold loop_cond, loop_body, int_mul_float.
  destruct (ls_pending st) as [|head rest]; [discriminate|]. intros _.
  destruct (float_of_int _) as [f|e'] eqn:Hf; cbn; [discriminate|].
  intros [= <-]. pose proof (float_of_int_Raise _ _ Hf) as ->.
  split; [reflexivity|]. now exists head, rest.
Qed.

(** ** The loop as a whole *)

(** The loop unfolds as a [while] does. *)
Lemma while_loop_eq (st : loop_state) :
  while_loop st =
  if loop_cond st then st' ← loop_body st; while_loop st' else Ok st.
Proof.
  rewrite while_loop_equation_1.
  destruct (inspect (loop_cond st)) as [[] Hc];
    (etransitivity; [|rewrite Hc; reflexivity]); simp while_loop; [|reflexivity].
  destruct (inspect (loop_body st)) as [[st'|e] Hb];
    (etransitivity; [|rewrite Hb; reflexivity]); simp while_loop; [|reflexivity].
  cbn. now rewrite while_loop_equation_1.
Qed.

Lemma loop_body_measure (st st' : loop_state) :
  loop_cond st = true -> loop_body st = Ok st' ->
  (loop_measure st' < loop_measure st)%nat.
Proof. loop_measure_decreases. Qed.

(** Induction along the passes of the loop. *)
Lemma while_loop_ind (P : loop_state -> result loop_state -> Prop) :
  (forall st, loop_cond st = false -> P st (Ok st)) ->
  (forall st e, loop_cond st = true -> loop_body st = Raise e -> P st (Raise e)) ->
  (forall st st' r, loop_cond st = true -> loop_body st = Ok st' ->
                    P st' r -> P st r) ->
  forall st, P st (while_loop st).
Proof.
  intros Hexit Hraise Hstep st.
  remember (loop_measure st) as n eqn:Hn.
  revert st Hn. induction (lt_wf n) as [n _ IH]. intros st ->.
  rewrite while_loop_eq. destruct (loop_cond st) eqn:Hc; [|now apply Hexit].
  destruct (loop_body st) as [st'|e] eqn:Hb; cbn; [|now apply Hraise].
  apply (Hstep st st' _ Hc Hb). eapply IH; [|reflexivity].
  now apply loop_body_measure.
Qed.

(** The rule for [while]: an invariant of the passes holds at the exit,
    where the test of the loop is false. *)
Lemma while_loop_invariant (I : loop_state -> Prop) :
  (forall st st', I st -> loop_cond st = true -> loop_body st = Ok st' -> I st') ->
  forall st st', I st -> while_loop st = Ok st' ->
                 I st' /\ loop_cond st' = false.
Proof.
  intros Hinv st.
  apply (while_loop_ind
           (fun st r => forall st', I st -> r = Ok st' ->
                                    I st' /\ loop_cond st' = false)).
  - intros st0 Hc st' HI [= <-]. auto.
  - intros st0 e _ _ st' _ [=].
  - intros st0 st1 r Hc Hb IH st' HI Hr. apply IH; [|assumption].
    now apply (Hinv st0 st1).
Qed.

(** At the exit either the deque is empty or the incoming order is used
    up. *)
Lemma loop_cond_false (st : loop_state) :
  loop_cond st = false -> ls_pending st = [] \/ QUANTITY (ls_order st) = 0.
Proof.
  unfold loop_cond. destruct (ls_pending st); [now left|].
  intros H. apply negb_false_iff, Z.eqb_eq in H. now right.
Qed.

(** What [place_order] returns, in terms of the loop. *)
Lemma place_order_Ok (self self' : OrderManagementSystem) (order : Order)
    (lines : list string) :
  place_order self order = Ok (self', lines) ->
  let pending := backlog self (SYMBOL order) in
  (lines = [] /\
   self' = set_backlog self (SYMBOL order) (pending ++ [order]) (total self) /\
   (pending = [] \/ exists head rest,
       pending = head :: rest /\ same_side order head = true))
  \/ exists head rest st,
       pending = head :: rest /\ same_side order head = false /\
       while_loop {| ls_pending := pending; ls_order := order;
                     ls_total := total self; ls_printed := [] |} = Ok st /\
       lines = ls_printed st /\
       self' = set_backlog self (SYMBOL order)
                 (if QUANTITY (ls_order st) =? 0 then ls_pending st
                  else ls_pending st ++ [ls_order st])
                 (ls_total st).
Proof.
  unfold place_order. cbn zeta.
  destruct (backlog self (SYMBOL order)) as [|head rest] eqn:Hp.
  - intros [= <- <-]. left. auto.
  - destruct (same_side order head) eqn:Hs.
    + intros [= <- <-]. left. repeat split. right. now exists head, rest.
    + destruct (while_loop _) as [st|e] eqn:Hw; cbn; [|discriminate].
      intros [= <- <-]. right. exists head, rest, st. auto.
Qed.

(** ** Binary64 arithmetic *)

Module Binary64.

(** *** The sign symmetries of rounding *)

Lemma binary_round_aux_opp s m e l :
  SFopp (binary_round_aux prec emax s m e l)
  = binary_round_aux prec emax (negb s) m e l.
Proof.
  unfold binary_round_aux.
  destruct (shr_fexp prec emax m e l) as [mrs' e'].
  destruct (shr_fexp prec emax _ e' loc_Exact) as [mrs'' e''].
  destruct (shr_m mrs''); cbn; try reflexivity.
  destruct (e'' <=? emax - prec); reflexivity.
Qed.

Lemma binary_normalize_opp m e :
  m <> 0 ->
  SFopp (binary_normalize prec emax m e false)
  = binary_normalize prec emax (- m) e false.
Proof.
  destruct m as [|m|m]; intros; try congruence;
    [change (- Z.pos m) with (Z.neg m)|change (- Z.neg m) with (Z.pos m)];
    unfold binary_normalize, binary_round;
    destruct (shl_align _ _ _); apply binary_round_aux_opp.
Qed.

Lemma SFsub_add_opp x y : SF64sub x y = SF64add x (SFopp y).
Proof.
  destruct x as [sx|sx| |sx mx ex], y as [sy|sy| |sy my ey]; cbn;
    try reflexivity; destruct sx, sy; reflexivity.
Qed.

Lemma SFmul_opp_r x y : SF64mul x (SFopp y) = SFopp (SF64mul x y).
Proof.
  destruct x as [sx|sx| |sx mx ex], y as [sy|sy| |sy my ey];
    cbn -[binary_round_aux]; rewrite <- ?negb_xorb_r; try reflexivity.
  now rewrite binary_round_aux_opp.
Qed.

(** [y - x] is the opposite of [x - y], except that both are [+0] when the
    difference vanishes. *)
Lemma SFsub_swap x y :
  SF64sub y x = SFopp (SF64sub x y)
  \/ (SF64sub x y = S754_zero false /\ SF64sub y x = S754_zero false).
Proof.
  destruct x as [sx|sx| |sx mx ex], y as [sy|sy| |sy my ey];
    cbn -[binary_normalize shl_align Z.min];
    try (left; reflexivity); try (destruct sx, sy; cbn; auto; fail).
  change IntDef.Z.min with Z.min. rewrite (Z.min_comm ey ex).
  set (a := cond_Zopp sx _). set (b := cond_Zopp sy _).
  destruct (Z.eq_dec (a - b) 0) as [E|E].
  - right. replace (b - a) with 0 by lia. rewrite E. auto.
  - left. rewrite binary_normalize_opp by assumption. f_equal. lia.
Qed.

(** Subtracting [q * (a - b)] is adding [q * (b - a)]. *)
Lemma sub_mul_sub_swap (t q a b : float) :
  float_same (t - q * (a - b))%float (t + q * (b - a))%float.
Proof.
  unfold float_same.
  destruct (SFsub_swap (Prim2SF a) (Prim2SF b)) as [Hopp|[Hz Hz']].
  - left. apply Prim2SF_inj.
    rewrite sub_spec, add_spec, !mul_spec, !sub_spec.
    rewrite Hopp, SFmul_opp_r, SFsub_add_opp. reflexivity.
  - rewrite <- sub_spec in Hz, Hz'.
    assert (Hp : Prim2SF (q * (a - b))%float = Prim2SF (q * (b - a))%float).
    { rewrite !mul_spec, Hz, Hz'. reflexivity. }
    apply Prim2SF_inj in Hp. rewrite <- Hp.
    set (p := (q * (a - b))%float).
    assert (Hpz : Prim2SF p = S754_nan \/ exists s, Prim2SF p = S754_zero s).
    { subst p. rewrite mul_spec, Hz.
      destruct (Prim2SF q) as [s|s| |s m e]; cbn; eauto. }
    destruct Hpz as [Hnan|[s Hs]].
    + left. apply Prim2SF_inj. rewrite sub_spec, add_spec, Hnan.
      destruct (Prim2SF t); reflexivity.
    + destruct (Prim2SF t) as [st| st| |st mt et] eqn:Ht.
      * right. rewrite FloatAxioms.eqb_spec, sub_spec, add_spec, Hs, Ht.
        destruct st, s; reflexivity.
      * left. apply Prim2SF_inj. rewrite sub_spec, add_spec, Hs, Ht. reflexivity.
      * left. apply Prim2SF_inj. rewrite sub_spec, add_spec, Hs, Ht. reflexivity.
      * left. apply Prim2SF_inj. rewrite sub_spec, add_spec, Hs, Ht. reflexivity.
Qed.

(** *** Integers below [2^1023] convert without overflow *)

Lemma digits2_pos_size (p : positive) : digits2_pos p = Pos.size p.
Proof. induction p; cbn; congruence. Qed.

Lemma digits2_pos_iter_xO (m k : positive) :
  digits2_pos (Pos.iter xO m k) = (digits2_pos m + k)%positive.
Proof.
  induction k using Pos.peano_ind.
  - cbn. lia.
  - rewrite Pos.iter_succ. cbn. rewrite IHk. lia.
Qed.

Lemma digits2_pos_bound (m : positive) (k : Z) :
  0 <= k -> Z.pos m < 2 ^ k -> Z.pos (digits2_pos m) <= k.
Proof.
  intros Hk Hm. rewrite digits2_pos_size.
  destruct (Z_le_gt_dec (Z.pos (Pos.size m)) k) as [|Hgt]; [assumption|exfalso].
  assert (Hpow : 2 ^ (k + 1) <= 2 ^ Z.pos (Pos.size m))
    by (apply Z.pow_le_mono_r; lia).
  assert (Hle : Z.pos (2 ^ Pos.size m) <= Z.pos (m~0)) by exact (Pos.size_le m).
  rewrite Pos2Z.inj_pow in Hle. change (Z.pos m~0) with (2 * Z.pos m) in Hle.
  rewrite Z.pow_add_r, Z.pow_1_r in Hpow by lia. lia.
Qed.

Lemma fexp_integer (d : Z) : 0 < d -> fexp prec emax d = d - 53.
Proof.
  intros Hd. unfold fexp, SpecFloat.emin, prec, emax.
  change IntDef.Z.max with Z.max. lia.
Qed.

(** A mantissa that is already in canonical position is not rounded. *)
Lemma binary_round_aux_canonical (s : bool) (m : positive) (e : Z) :
  canonical_mantissa prec emax m e = true -> e <= emax - prec ->
  binary_round_aux prec emax s (Z.pos m) e loc_Exact = S754_finite s m e.
Proof.
  unfold canonical_mantissa. intros Hc He. apply Z.eqb_eq in Hc.
  unfold binary_round_aux, shr_fexp. cbn [Zdigits2 shr_record_of_loc].
  rewrite Hc, Z.sub_diag.
  cbn [shr shr_m loc_of_shr_record round_nearest_even Zdigits2].
  rewrite Hc, Z.sub_diag. cbn [shr shr_m shr_record_of_loc].
  apply Z.leb_le in He. now rewrite He.
Qed.

(** At most 53 bits: the integer is shifted into position, exactly. *)
Lemma binary_round_small (s : bool) (m : positive) :
  Z.pos (digits2_pos m) <= 53 ->
  exists m' e', binary_round prec emax s m 0 = S754_finite s m' e'.
Proof.
  intros Hd. unfold binary_round, shl_align.
  rewrite Z.add_0_r, fexp_integer by lia.
  destruct (Z.pos (digits2_pos m) - 53 - 0) as [|d|d] eqn:Hdiff; try lia.
  - exists m, 0. apply binary_round_aux_canonical; [|unfold prec, emax; lia].
    unfold canonical_mantissa. rewrite Z.add_0_r, fexp_integer by lia.
    apply Z.eqb_eq. lia.
  - exists (Pos.iter xO m d), (Z.pos (digits2_pos m) - 53).
    apply binary_round_aux_canonical; [|unfold prec, emax; lia].
    unfold canonical_mantissa. rewrite digits2_pos_iter_xO, Pos2Z.inj_add.
    change (Z.neg d) with (- Z.pos d) in Hdiff.
    rewrite fexp_integer by lia. apply Z.eqb_eq. lia.
Qed.

(** More than 53 bits: the low bits are shifted out, and what they leave
    is rounded.  Each shift takes one bit, and rounding adds at most one. *)
Lemma Zdigits2_nonneg (m : Z) : 0 <= Zdigits2 m.
Proof. destruct m; cbn; lia. Qed.

Lemma Zdigits2_shr_1 (mrs : shr_record) :
  Zdigits2 (shr_m (shr_1 mrs)) = Z.max 0 (Zdigits2 (shr_m mrs) - 1).
Proof.
  destruct mrs as [m r s]. destruct m as [|p|p]; [reflexivity|destruct p..];
    cbn [shr_1 shr_m Zdigits2 digits2_pos]; rewrite ?Pos2Z.inj_succ; lia.
Qed.

Lemma Zdigits2_iter_shr_1 (n : positive) :
  forall mrs,
    Zdigits2 (shr_m (SpecFloat.iter_pos shr_1 n mrs))
    = Z.max 0 (Zdigits2 (shr_m mrs) - Z.pos n).
Proof.
  induction n as [n IH|n IH|]; intros mrs; cbn [SpecFloat.iter_pos].
  - rewrite !IH, Zdigits2_shr_1. pose proof (Zdigits2_nonneg (shr_m mrs)). lia.
  - rewrite !IH. pose proof (Zdigits2_nonneg (shr_m mrs)). lia.
  - apply Zdigits2_shr_1.
Qed.

Lemma shr_1_nonneg (mrs : shr_record) : 0 <= shr_m mrs -> 0 <= shr_m (shr_1 mrs).
Proof.
  destruct mrs as [m r s]. destruct m as [|p|p]; cbn; try lia; destruct p; cbn; lia.
Qed.

Lemma iter_shr_1_nonneg (n : positive) :
  forall mrs, 0 <= shr_m mrs -> 0 <= shr_m (SpecFloat.iter_pos shr_1 n mrs).
Proof.
  induction n as [n IH|n IH|]; intros mrs H; cbn [SpecFloat.iter_pos].
  - apply IH, IH, shr_1_nonneg, H.
  - apply IH, IH, H.
  - apply shr_1_nonneg, H.
Qed.

Lemma size_succ_le (p : positive) :
  (Pos.size (Pos.succ p) <= Pos.succ (Pos.size p))%positive.
Proof. induction p; simpl; lia. Qed.

Lemma Zdigits2_round (m : Z) (l : location) :
  0 <= m -> Zdigits2 (round_nearest_even m l) <= Zdigits2 m + 1.
Proof.
  intros Hm.
  assert (H1 : Zdigits2 (m + 1) <= Zdigits2 m + 1).
  { destruct m as [|p|p]; [simpl; lia| |lia].
    change (Z.pos p + 1) with (Z.pos (p + 1)). cbn [Zdigits2].
    rewrite (digits2_pos_size p), (digits2_pos_size (p + 1)), Pos.add_1_r.
    pose proof (size_succ_le p). lia. }
  unfold round_nearest_even. destruct l as [|[]]; try lia.
  destruct (Z.even m); lia.
Qed.

(** The exponent of a rounded integer of at most 1023 bits stays in
    range. *)
Lemma binary_round_aux_not_infinity (s : bool) (m : positive) :
  Z.pos (digits2_pos m) <= 1023 ->
  forall s', binary_round_aux prec emax s (Z.pos m) 0 loc_Exact <> S754_infinity s'.
Proof.
  intros Hd s'. unfold binary_round_aux.
  destruct (shr_fexp prec emax (Z.pos m) 0 loc_Exact) as [mrs' e'] eqn:H1.
  destruct (shr_fexp prec emax
              (round_nearest_even (shr_m mrs') (loc_of_shr_record mrs')) e' loc_Exact)
    as [mrs'' e''] eqn:H2.
  assert (He' : e' <= 970 /\ 0 <= shr_m mrs' /\ Zdigits2 (shr_m mrs') + e' <= 1023).
  { unfold shr_fexp, shr in H1. cbn [Zdigits2 shr_record_of_loc] in H1.
    destruct (fexp prec emax (Z.pos (digits2_pos m) + 0) - 0) as [|n|n] eqn:Hn;
      injection H1 as <- <-; cbn [shr_m Zdigits2];
      rewrite Z.add_0_r, fexp_integer in Hn by lia; try lia.
    split; [lia|]. split; [apply iter_shr_1_nonneg; cbn; lia|].
    rewrite Zdigits2_iter_shr_1. cbn [shr_m Zdigits2]. lia. }
  destruct He' as (He' & Hnn & Hde).
  assert (He'' : e'' <= 971).
  { unfold shr_fexp, shr in H2.
    pose proof (Zdigits2_round (shr_m mrs') (loc_of_shr_record mrs') Hnn) as Hr.
    set (m2 := round_nearest_even _ _) in *.
    destruct (fexp prec emax (Zdigits2 m2 + e') - e') as [|n|n] eqn:Hn;
      injection H2 as <- <-; try lia.
    unfold fexp, SpecFloat.emin, prec, emax in Hn.
    change IntDef.Z.max with Z.max in Hn. lia. }
  destruct (shr_m mrs''); try discriminate.
  apply Z.leb_le in He''. unfold emax, prec. change (1024 - 53) with 971.
  rewrite He''. discriminate.
Qed.

Lemma binary_round_not_infinity (s : bool) (m : positive) :
  Z.pos m < 2 ^ 1023 ->
  forall s', binary_round prec emax s m 0 <> S754_infinity s'.
Proof.
  intros Hm s'. pose proof (digits2_pos_bound m 1023 ltac:(lia) Hm) as Hd.
  destruct (Z_le_gt_dec (Z.pos (digits2_pos m)) 53) as [Hs|Hl].
  - destruct (binary_round_small s m Hs) as (m' & e' & ->). discriminate.
  - unfold binary_round, shl_align. rewrite Z.add_0_r, fexp_integer by lia.
    destruct (Z.pos (digits2_pos m) - 53 - 0) as [|d|d] eqn:Hdiff; try lia.
    now apply binary_round_aux_not_infinity.
Qed.

(** [float(n)] does not overflow for [|n| < 2^1023]. *)
Lemma float_of_int_bounded (n : Z) :
  Z.abs n < 2 ^ 1023 -> exists f, float_of_int n = Ok f.
Proof.
  intros Hn. unfold float_of_int, binary_normalize.
  destruct n as [|m|m]; [eauto| |].
  - pose proof (binary_round_not_infinity false m ltac:(lia)) as H.
    destruct (binary_round prec emax false m 0); eauto. now destruct (H s).
  - pose proof (binary_round_not_infinity true m ltac:(lia)) as H.
    destruct (binary_round prec emax true m 0); eauto. now destruct (H s).
Qed.

Lemma float_of_int_0 : float_of_int 0 = Ok PrimFloat.zero.
Proof. reflexivity. Qed.

(** *** Zeros *)

(** Adding or subtracting a zero does not change the value. *)
Lemma add_sub_zero_same (t z : float) (s : bool) :
  Prim2SF z = S754_zero s ->
  float_same (t + z)%float t /\ float_same (t - z)%float t.
Proof.
  intros Hz. unfold float_same.
  destruct (Prim2SF t) as [st|st| |st mt et] eqn:Ht.
  - split; right; rewrite FloatAxioms.eqb_spec, ?add_spec, ?sub_spec, Hz, Ht;
      destruct st, s; reflexivity.
  - split; left; apply Prim2SF_inj; rewrite ?add_spec, ?sub_spec, Hz, Ht;
      reflexivity.
  - split; left; apply Prim2SF_inj; rewrite ?add_spec, ?sub_spec, Hz, Ht;
      reflexivity.
  - split; left; apply Prim2SF_inj; rewrite ?add_spec, ?sub_spec, Hz, Ht;
      reflexivity.
Qed.

(** Zero times a finite number is a zero. *)
Lemma zero_mul_finite (d : float) :
  float_finite d = true ->
  exists s, Prim2SF (PrimFloat.zero * d)%float = S754_zero s.
Proof.
  unfold float_finite. rewrite mul_spec.
  change (Prim2SF PrimFloat.zero) with (S754_zero false).
  destruct (Prim2SF d) as [sd|sd| |sd md ed]; try discriminate; cbn; eauto.
Qed.

End Binary64.

(** ** The sign of a match *)

(** C1: a match of quantity [q] moves the running total by
    [q * (sell price - buy price)]: an incoming buy lowers the total by
    [q * (incoming price - resting price)], any other incoming order raises
    it by that amount. *)
Theorem match_pnl_sign (st st' : loop_state) (head : Order) (rest : list Order) :
  ls_pending st = head :: rest ->
  loop_body st = Ok st' ->
  let order := ls_order st in
  exists q : float,
    float_of_int (Z.min (QUANTITY order) (QUANTITY head)) = Ok q /\
    let pnl_delta := (q * (PRICE order - PRICE head))%float in
    (SIDE order = "B" -> ls_total st' = (ls_total st - pnl_delta)%float) /\
    (SIDE order <> "B" -> ls_total st' = (ls_total st + pnl_delta)%float) /\
    float_same (ls_total st')
      (ls_total st + q * (sell_price order head - buy_price order head))%float.
Proof.
  intros Hp Hb. apply loop_body_Ok in Hb as (head' & rest' & pnl & Hp' & Hpnl & ->).
  rewrite Hp in Hp'. injection Hp' as <- <-. cbn zeta in *.
  unfold int_mul_float in Hpnl.
  destruct (float_of_int _) as [q|] eqn:Hq; [|discriminate].
  cbn in Hpnl. injection Hpnl as <-. exists q. split; [reflexivity|].
  cbn [ls_total]. unfold sell_price, buy_price.
  destruct (String.eqb_spec (SIDE (ls_order st)) "B") as [HB|HB].
  - repeat split; [congruence|]. apply Binary64.sub_mul_sub_swap.
  - repeat split; [congruence|]. now left.
Qed.

Lemma match_pnl_sign_witness :
  float_same
    (ls_total {| ls_pending := []; ls_order := on_X 2 "S" 12 0;
                 ls_total := 200; ls_printed := ["1,2,X,100,200.00,B,S,10.00,12.00"] |})
    (0 + 100 * (12 - 10))%float.
Proof.
  destruct (match_pnl_sign
              (enter_loop [on_X 1 "B" 10 100] (on_X 2 "S" 12 100) 0)
              {| ls_pending := []; ls_order := on_X 2 "S" 12 0;
                 ls_total := 200;
                 ls_printed := ["1,2,X,100,200.00,B,S,10.00,12.00"] |}
              (on_X 1 "B" 10 100) [] eq_refl)
    as (q & Hq & _ & _ & Hsame).
  - vm_compute. reflexivity.
  - vm_compute in Hq. injection Hq as <-. exact Hsame.
Defined.

(** ** Quantities of a match *)

(** C4: a pass consumes [min] of the two remaining quantities; that value
    is taken from the resting order and from the incoming order, and it is
    the [QUANTITY] field of the line that is printed. *)
Theorem match_quantity (st st' : loop_state) (head : Order) (rest : list Order) :
  ls_pending st = head :: rest ->
  loop_body st = Ok st' ->
  let order := ls_order st in
  let consumed := Z.min (QUANTITY order) (QUANTITY head) in
  QUANTITY (ls_order st') = QUANTITY order - consumed /\
  QUANTITY (sub_QUANTITY head consumed) = QUANTITY head - consumed /\
  (ls_pending st' = sub_QUANTITY head consumed :: rest
     /\ QUANTITY head - consumed <> 0
   \/ ls_pending st' = rest /\ QUANTITY head - consumed = 0) /\
  exists profit_and_loss,
    ls_printed st' =
      ls_printed st ++
      [String.concat "," (close_order_fields order head consumed profit_and_loss)]
    /\ close_order_fields order head consumed profit_and_loss !! 3%nat
       = Some (pretty consumed).
Proof.
  intros Hp Hb. apply loop_body_Ok in Hb as (head' & rest' & pnl & Hp' & Hpnl & ->).
  rewrite Hp in Hp'. injection Hp' as <- <-. cbn.
  repeat split.
  - destruct (Z.eqb_spec (QUANTITY head - Z.min (QUANTITY (ls_order st)) (QUANTITY head)) 0);
      [right|left]; split; auto.
  - exists pnl. split; reflexivity.
Qed.

Lemma match_quantity_witness :
  QUANTITY (on_X 3 "S" 12 0) = 60 - Z.min 60 80 /\
  QUANTITY (sub_QUANTITY (on_X 1 "B" 10 80) (Z.min 60 80)) = 80 - Z.min 60 80.
Proof.
  destruct (match_quantity
              (enter_loop [on_X 1 "B" 10 80; on_X 2 "B" 11 30] (on_X 3 "S" 12 60) 0)
              {| ls_pending := [on_X 1 "B" 10 20; on_X 2 "B" 11 30];
                 ls_order := on_X 3 "S" 12 0;
                 ls_total := 120;
                 ls_printed := ["1,3,X,60,120.00,B,S,10.00,12.00"] |}
              (on_X 1 "B" 10 80) [on_X 2 "B" 11 30] eq_refl)
    as (Ho & Hh & _).
  - vm_compute. reflexivity.
  - split; [exact Ho|exact Hh].
Defined.

(** ** Orders that open or extend a position *)

(** The first branch of [place_order]: the order is appended as it is. *)
Lemma place_order_append (self : OrderManagementSystem) (order : Order) :
  (backlog self (SYMBOL order) = []
   \/ exists head rest,
        backlog self (SYMBOL order) = head :: rest /\ same_side order head = true) ->
  place_order self order
  = Ok (set_backlog self (SYMBOL order)
          (backlog self (SYMBOL order) ++ [order]) (total self), []).
Proof.
  unfold place_order. intros [->|(head & rest & -> & ->)]; reflexivity.
Qed.

(** C5: on an empty backlog, or on one whose front order has the side of
    the incoming order, the side being one of the two of the input format,
    [B] or [S] (for which the two sides are one object and the side test
    holds), nothing is printed, the total stays, and the order goes to the
    back of the backlog as it is. *)
Theorem place_order_appends (self : OrderManagementSystem) (order : Order) :
  (backlog self (SYMBOL order) = []
   \/ exists head rest,
        backlog self (SYMBOL order) = head :: rest /\
        buy_or_sell order /\ SIDE head = SIDE order) ->
  exists self',
    place_order self order = Ok (self', []) /\
    total self' = total self /\
    backlog self' (SYMBOL order) = backlog self (SYMBOL order) ++ [order] /\
    forall symbol, symbol <> SYMBOL order ->
                   backlog self' symbol = backlog self symbol.
Proof.
  intros H.
  exists (set_backlog self (SYMBOL order)
            (backlog self (SYMBOL order) ++ [order]) (total self)).
  split.
  - apply place_order_append.
    destruct H as [Hb|(head & rest & Hb & Hbs & Hs)]; [now left|right].
    exists head, rest. split; [exact Hb|].
    unfold same_side. rewrite Hs. apply String.eqb_refl.
  - split; [reflexivity|]. split; [apply backlog_set_eq|].
    intros symbol Hne. now apply backlog_set_ne.
Qed.

Lemma place_order_appends_witness :
  exists self',
    place_order (with_X [on_X 1 "B" 10 50] 0) (on_X 2 "B" 11 30) = Ok (self', []) /\
    backlog self' "X" = [on_X 1 "B" 10 50; on_X 2 "B" 11 30].
Proof.
  destruct (place_order_appends (with_X [on_X 1 "B" 10 50] 0) (on_X 2 "B" 11 30))
    as (self' & Hp & _ & Hb & _).
  - right. exists (on_X 1 "B" 10 50), [].
    split; [reflexivity|]. split; [left|]; reflexivity.
  - exists self'. split; [exact Hp|exact Hb].
Defined.

(** ** Side purity *)

(** A pass keeps the orders of the deque on their side. *)
Lemma loop_body_one_side (side : string) (st st' : loop_state) :
  Forall (fun o => SIDE o = side) (ls_pending st) ->
  loop_body st = Ok st' ->
  Forall (fun o => SIDE o = side) (ls_pending st').
Proof.
  intros HF Hb. apply loop_body_Ok in Hb as (head & rest & pnl & Hp & _ & ->).
  rewrite Hp in HF. apply Forall_cons in HF as [Hh Hr]. cbn.
  destruct (_ =? 0); [assumption|]. constructor; assumption.
Qed.

Lemma place_order_side_pure (self self' : OrderManagementSystem) (order : Order)
    (lines : list string) :
  side_pure self -> place_order self order = Ok (self', lines) -> side_pure self'.
Proof.
  intros Hpure Hp symbol.
  destruct (decide (SYMBOL order = symbol)) as [<-|Hne].
  2: { apply place_order_Ok in Hp as [(_ & -> & _)|(? & ? & ? & _ & _ & _ & _ & ->)];
       rewrite backlog_set_ne by assumption; apply Hpure. }
  specialize (Hpure (SYMBOL order)).
  apply place_order_Ok in Hp
    as [(_ & -> & Hcase)|(head & rest & st & Hb & Hs & Hw & _ & ->)];
    rewrite backlog_set_eq.
  - destruct Hcase as [->|(head & rest & Hb & Hs)].
    + exists (SIDE order). cbn. repeat constructor.
    + destruct Hpure as [side HF]. exists side.
      apply Forall_app. split; [assumption|]. repeat constructor.
      rewrite Hb in HF. apply Forall_cons in HF as [<- _].
      unfold same_side in Hs. now apply String.eqb_eq in Hs.
  - destruct Hpure as [side HF].
    apply (while_loop_invariant
             (fun st => Forall (fun o => SIDE o = side) (ls_pending st)))
      in Hw as [HF' Hc]; [| intros; eapply loop_body_one_side; eassumption | exact HF].
    destruct (Z.eqb_spec (QUANTITY (ls_order st)) 0) as [Hq|Hq].
    + now exists side.
    + apply loop_cond_false in Hc as [->|]; [|contradiction].
      exists (SIDE (ls_order st)). repeat constructor.
Qed.

Lemma side_pure_init : side_pure init.
Proof. intros symbol. exists "". rewrite backlog_init. constructor. Qed.

Lemma place_orders_side_pure (orders : list Order) :
  forall (self self' : OrderManagementSystem) (lines : list string),
    side_pure self -> place_orders self orders = Ok (self', lines) ->
    side_pure self'.
Proof.
  induction orders as [|order orders IH]; intros self self' lines Hpure; cbn.
  - now intros [= <- <-].
  - destruct (place_order self order) as [[self1 lines1]|] eqn:Hp; [|discriminate].
    cbn. destruct (place_orders self1 orders) as [[self2 lines2]|] eqn:Hps;
      [|discriminate].
    cbn. intros [= <- <-]. eapply IH; [|eassumption].
    eapply place_order_side_pure; eassumption.
Qed.

(** C3: every [place_order] keeps each backlog on one side, so after any
    sequence of orders placed from the initial state each backlog is empty
    or has all its orders on the same side. *)
Theorem side_purity :
  (forall self order self' lines,
      side_pure self -> place_order self order = Ok (self', lines) ->
      side_pure self') /\
  (forall orders self' lines,
      place_orders init orders = Ok (self', lines) ->
      forall symbol,
        backlog self' symbol = []
        \/ exists side, Forall (fun o => SIDE o = side) (backlog self' symbol)).
Proof.
  split.
  - intros self order self' lines. apply place_order_side_pure.
  - intros orders self' lines Hp symbol. right.
    exact (place_orders_side_pure orders init self' lines side_pure_init Hp symbol).
Qed.

Lemma side_purity_witness :
  exists side,
    Forall (fun o => SIDE o = side)
      (backlog (with_X [on_X 2 "B" 11 20] 110) "X").
Proof.
  destruct (proj2 side_purity
              [on_X 1 "B" 10 50; on_X 2 "B" 11 30; on_X 3 "S" 12 60]
              (with_X [on_X 2 "B" 11 20] 110)
              ["1,3,X,50,100.00,B,S,10.00,12.00"; "2,3,X,10,10.00,B,S,11.00,12.00"])
    with (symbol := "X") as [Hnil|Hside].
  - vm_compute. reflexivity.
  - discriminate Hnil.
  - exact Hside.
Defined.

(** ** Termination *)

Lemma loop_body_returns (st : loop_state) (head : Order) (rest : list Order) :
  ls_pending st = head :: rest ->
  Z.abs (Z.min (QUANTITY (ls_order st)) (QUANTITY head)) < 2 ^ 1023 ->
  exists st', loop_body st = Ok st'.
Proof.
  intros Hp Hq. unfold loop_body, int_mul_float. rewrite Hp.
  destruct (Binary64.float_of_int_bounded _ Hq) as [f ->]. cbn. eauto.
Qed.

(** With quantities that are not negative, a pass takes a positive amount
    from the incoming order, or it pops the front order of the deque. *)
Lemma loop_body_progress (st st' : loop_state) :
  0 <= QUANTITY (ls_order st) ->
  Forall (fun o => 0 <= QUANTITY o) (ls_pending st) ->
  loop_cond st = true -> loop_body st = Ok st' ->
  QUANTITY (ls_order st') < QUANTITY (ls_order st)
  \/ (length (ls_pending st') < length (ls_pending st))%nat.
Proof.
  intros Ho HF Hc Hb.
  apply loop_body_Ok in Hb as (head & rest & pnl & Hp & _ & ->).
  unfold loop_cond in Hc. rewrite Hp in Hc, HF |- *.
  apply negb_true_iff, Z.eqb_neq in Hc. apply Forall_cons in HF as [Hh _].
  cbn. destruct (Z.eqb_spec (QUANTITY head - Z.min (QUANTITY (ls_order st)) (QUANTITY head)) 0);
    cbn [length]; lia.
Qed.

(** The loop stops where its test is false, unless a conversion overflowed. *)
Lemma while_loop_outcome (st : loop_state) :
  (exists st', while_loop st = Ok st' /\ loop_cond st' = false)
  \/ while_loop st = Raise OverflowError.
Proof.
  apply (while_loop_ind
           (fun _ r => (exists st', r = Ok st' /\ loop_cond st' = false)
                       \/ r = Raise OverflowError)).
  - intros st0 Hc. left. eauto.
  - intros st0 e Hc Hb. right. now destruct (loop_body_Raise st0 e Hc Hb) as [-> _].
  - intros st0 st1 r _ _ IH. exact IH.
Qed.

Lemma place_order_outcome (self : OrderManagementSystem) (order : Order) :
  (exists self' lines, place_order self order = Ok (self', lines))
  \/ place_order self order = Raise OverflowError.
Proof.
  unfold place_order. cbn zeta.
  destruct (backlog self (SYMBOL order)) as [|head rest]; [left; eauto|].
  destruct (same_side order head); [left; eauto|].
  destruct (while_loop_outcome
              {| ls_pending := head :: rest; ls_order := order;
                 ls_total := total self; ls_printed := [] |})
    as [(st' & -> & _)| ->]; cbn; [left; eauto|now right].
Qed.

(** With an incoming quantity in [[0, 2^1023)] and resting quantities that
    are not negative no conversion overflows. *)
Lemma while_loop_returns (st : loop_state) :
  0 <= QUANTITY (ls_order st) < 2 ^ 1023 ->
  Forall (fun o => 0 <= QUANTITY o) (ls_pending st) ->
  exists st', while_loop st = Ok st'.
Proof.
  apply (while_loop_ind
           (fun st r => 0 <= QUANTITY (ls_order st) < 2 ^ 1023 ->
                        Forall (fun o => 0 <= QUANTITY o) (ls_pending st) ->
                        exists st', r = Ok st')).
  - eauto.
  - intros st0 e Hc Hb Ho HF. exfalso.
    destruct (loop_body_Raise st0 e Hc Hb) as (_ & head & rest & Hp & Hf).
    rewrite Hp in HF. apply Forall_cons in HF as [Hh _].
    destruct (Binary64.float_of_int_bounded (Z.min (QUANTITY (ls_order st0)) (QUANTITY head)))
      as [f Hf']; [lia|congruence].
  - intros st0 st1 r Hc Hb IH Ho HF.
    apply loop_body_Ok in Hb as (head & rest & pnl & Hp & _ & ->).
    rewrite Hp in HF. apply Forall_cons in HF as [Hh Hr].
    apply IH; cbn; [lia|].
    destruct (_ =? 0); [assumption|]. constructor; [cbn; lia|assumption].
Qed.

Lemma place_order_returns (self : OrderManagementSystem) (order : Order) :
  0 <= QUANTITY order < 2 ^ 1023 ->
  Forall (fun o => 0 <= QUANTITY o) (backlog self (SYMBOL order)) ->
  exists self' lines, place_order self order = Ok (self', lines).
Proof.
  intros Ho HF. unfold place_order. cbn zeta.
  destruct (backlog self (SYMBOL order)) as [|head rest]; [eauto|].
  destruct (same_side order head); [eauto|].
  destruct (while_loop_returns
              {| ls_pending := head :: rest; ls_order := order;
                 ls_total := total self; ls_printed := [] |} Ho HF) as [st' ->].
  cbn. eauto.
Qed.

(** C10: the loop of [place_order] terminates from every state.  Each pass
    that completes lowers [loop_measure]; with quantities that are not
    negative it lowers the remaining quantity of the incoming order or
    shortens the deque, and a front order of quantity zero is popped.  The
    loop ends with its test false, or with the [OverflowError] of a
    conversion; so does [place_order], which returns whenever the incoming
    quantity is in [[0, 2^1023)] and no resting quantity is negative. *)
Theorem place_order_terminates :
  (forall st st',
      loop_cond st = true -> loop_body st = Ok st' ->
      (loop_measure st' < loop_measure st)%nat) /\
  (forall st st',
      0 <= QUANTITY (ls_order st) ->
      Forall (fun o => 0 <= QUANTITY o) (ls_pending st) ->
      loop_cond st = true -> loop_body st = Ok st' ->
      (QUANTITY (ls_order st') < QUANTITY (ls_order st)
       \/ (length (ls_pending st') < length (ls_pending st))%nat) /\
      (forall head rest,
          ls_pending st = head :: rest -> QUANTITY head = 0 ->
          ls_pending st' = rest)) /\
  (forall st,
      (exists st', while_loop st = Ok st' /\ loop_cond st' = false)
      \/ while_loop st = Raise OverflowError) /\
  (forall self order,
      (exists self' lines, place_order self order = Ok (self', lines))
      \/ place_order self order = Raise OverflowError) /\
  (forall self order,
      0 <= QUANTITY order < 2 ^ 1023 ->
      Forall (fun o => 0 <= QUANTITY o) (backlog self (SYMBOL order)) ->
      exists self' lines, place_order self order = Ok (self', lines)).
Proof.
  split; [exact loop_body_measure|].
  split; [|split; [exact while_loop_outcome|
                   split; [exact place_order_outcome|exact place_order_returns]]].
  intros st st' Ho HF Hc Hb. split; [now apply loop_body_progress|].
  intros head rest Hp Hq.
  apply loop_body_Ok in Hb as (head' & rest' & pnl & Hp' & _ & ->).
  rewrite Hp in Hp'. injection Hp' as <- <-. cbn.
  rewrite Hq. replace (0 - Z.min (QUANTITY (ls_order st)) 0) with 0 by lia.
  reflexivity.
Qed.

Lemma place_order_terminates_witness :
  (loop_measure
     {| ls_pending := [on_X 2 "B" 11 30]; ls_order := on_X 3 "S" 12 60;
        ls_total := 0; ls_printed := ["1,3,X,0,0.00,B,S,10.00,12.00"] |}
   < loop_measure
       (enter_loop [on_X 1 "B" 10 0; on_X 2 "B" 11 30] (on_X 3 "S" 12 60) 0))%nat.
Proof.
  apply (proj1 place_order_terminates).
  - reflexivity.
  - vm_compute. reflexivity.
Defined.

(** ** An order that exactly exhausts the backlog *)

Lemma sum_quantities_nonneg (pending : list Order) :
  Forall (fun o => 0 < QUANTITY o) pending -> 0 <= sum_quantities pending.
Proof. induction 1; cbn; lia. Qed.

Lemma sum_quantities_zero (pending : list Order) :
  Forall (fun o => 0 < QUANTITY o) pending ->
  sum_quantities pending = 0 -> pending = [].
Proof.
  destruct 1 as [|o l Ho Hl]; [reflexivity|]. cbn.
  pose proof (sum_quantities_nonneg l Hl). lia.
Qed.

(** The passes keep the incoming quantity equal to what rests. *)
Lemma loop_body_exact (st st' : loop_state) :
  Forall (fun o => 0 < QUANTITY o) (ls_pending st) ->
  QUANTITY (ls_order st) = sum_quantities (ls_pending st) ->
  loop_body st = Ok st' ->
  Forall (fun o => 0 < QUANTITY o) (ls_pending st') /\
  QUANTITY (ls_order st') = sum_quantities (ls_pending st').
Proof.
  intros HF Hsum Hb.
  apply loop_body_Ok in Hb as (head & rest & pnl & Hp & _ & ->).
  rewrite Hp in HF, Hsum. apply Forall_cons in HF as [Hh Hr].
  pose proof (sum_quantities_nonneg rest Hr) as Hnn. cbn in Hsum |- *.
  replace (Z.min (QUANTITY (ls_order st)) (QUANTITY head)) with (QUANTITY head)
    by lia.
  rewrite Z.sub_diag. cbn. split; [assumption|lia].
Qed.

(** C7, as the code has it: an opposite-side order whose quantity is the
    sum of the resting quantities, all of them positive, leaves the backlog
    empty and appends nothing.  The call fails only with the
    [OverflowError] of a conversion, which takes a quantity of [2^1023] or
    more. *)
Theorem exact_fill_empties_backlog (self : OrderManagementSystem)
    (order head : Order) (rest : list Order) :
  backlog self (SYMBOL order) = head :: rest ->
  same_side order head = false ->
  Forall (fun o => 0 < QUANTITY o) (head :: rest) ->
  QUANTITY order = sum_quantities (head :: rest) ->
  match place_order self order with
  | Ok (self', _) => backlog self' (SYMBOL order) = []
  | Raise e => e = OverflowError /\ 2 ^ 1023 <= QUANTITY order
  end.
Proof.
  intros Hb Hs HF Hsum.
  destruct (place_order self order) as [[self' lines]|e] eqn:Hp.
  - apply place_order_Ok in Hp
      as [(_ & _ & [Hnil|(h & r & Hb' & Hs')])|(h & r & st & Hb' & _ & Hw & _ & ->)].
    + rewrite Hb in Hnil. discriminate.
    + rewrite Hb in Hb'. injection Hb' as <- <-. congruence.
    + rewrite backlog_set_eq. rewrite Hb in Hw.
      apply (while_loop_invariant
               (fun st => Forall (fun o => 0 < QUANTITY o) (ls_pending st) /\
                          QUANTITY (ls_order st) = sum_quantities (ls_pending st)))
        in Hw as [[HF' Hsum'] Hc].
      * assert (Hnil : ls_pending st = []).
        { apply loop_cond_false in Hc as [|Hq]; [assumption|].
          apply sum_quantities_zero; [assumption|congruence]. }
        rewrite Hnil in Hsum' |- *. cbn in Hsum'. now rewrite Hsum'.
      * intros st0 st1 [HF0 Hsum0] _ Hb0. now apply (loop_body_exact st0 st1).
      * split; assumption.
  - destruct (place_order_outcome self order) as [(self' & lines & Hp')| Hp'];
      [congruence|].
    split; [congruence|].
    destruct (Z_lt_le_dec (QUANTITY order) (2 ^ 1023)) as [Hlt|]; [exfalso|assumption].
    pose proof (sum_quantities_nonneg _ HF) as Hnn.
    destruct (place_order_returns self order) as (self' & lines & Hp'');
      [lia| |congruence].
    rewrite Hb. eapply Forall_impl; [exact HF|]. cbn. intros; lia.
Qed.

Lemma exact_fill_empties_backlog_witness :
  exists self' lines,
    place_order (with_X [on_X 1 "B" 10 40; on_X 2 "B" 10 60] 0) (on_X 3 "S" 9 100)
    = Ok (self', lines) /\ backlog self' "X" = [].
Proof.
  assert (HF : Forall (fun o => 0 < QUANTITY o)
                 [on_X 1 "B" 10 40; on_X 2 "B" 10 60]).
  { repeat constructor. }
  pose proof (exact_fill_empties_backlog
                (with_X [on_X 1 "B" 10 40; on_X 2 "B" 10 60] 0) (on_X 3 "S" 9 100)
                (on_X 1 "B" 10 40) [on_X 2 "B" 10 60] eq_refl eq_refl HF eq_refl)
    as H.
  destruct (place_order _ _) as [[self' lines]|e]; [|destruct H as [_ H]; exfalso; apply H; reflexivity].
  exists self', lines. split; [reflexivity|exact H].
Defined.

(** A resting order of quantity zero at the back survives an order that
    takes the whole sum: the backlog is not emptied. *)
Example place_order_leaves_zero_entry :
  place_orders init [on_X 1 "B" 10 5; on_X 2 "B" 11 0]
    = Ok (with_X [on_X 1 "B" 10 5; on_X 2 "B" 11 0] 0, []) /\
  place_order (with_X [on_X 1 "B" 10 5; on_X 2 "B" 11 0] 0) (on_X 3 "S" 12 5)
    = Ok (with_X [on_X 2 "B" 11 0] 10, ["1,3,X,5,10.00,B,S,10.00,12.00"]).
Proof. split; vm_compute; reflexivity. Qed.

Lemma exact_fill_counterexample :
  ~ (forall self order head rest self' lines,
        backlog self (SYMBOL order) = head :: rest ->
        same_side order head = false ->
        QUANTITY order = sum_quantities (head :: rest) ->
        place_order self order = Ok (self', lines) ->
        backlog self' (SYMBOL order) = []).
Proof.
  intros H.
  specialize (H (with_X [on_X 1 "B" 10 5; on_X 2 "B" 11 0] 0) (on_X 3 "S" 12 5)
                (on_X 1 "B" 10 5) [on_X 2 "B" 11 0]
                (with_X [on_X 2 "B" 11 0] 10) ["1,3,X,5,10.00,B,S,10.00,12.00"]
                eq_refl eq_refl eq_refl (proj2 place_order_leaves_zero_entry)).
  discriminate H.
Qed.

(** ** Quantities of resting orders *)

Lemma shrunk_refl (o : Order) : shrunk o o.
Proof. unfold shrunk. repeat split; lia. Qed.

Lemma shrunk_sub (o' o : Order) (quantity : Z) :
  shrunk o' o -> 0 <= quantity -> shrunk (sub_QUANTITY o' quantity) o.
Proof.
  unfold shrunk. cbn. intros (? & ? & ? & ? & ?) ?.
  repeat split; try assumption. lia.
Qed.

Lemma loop_body_shrinking pending0 order0 (st st' : loop_state) :
  shrinking pending0 order0 st -> loop_cond st = true -> loop_body st = Ok st' ->
  shrinking pending0 order0 st'.
Proof.
  intros (Hnn & Ho & Hso & Hsp) Hc Hb.
  apply loop_body_Ok in Hb as (head & rest & p & Hp & _ & ->).
  unfold loop_cond in Hc. rewrite Hp in Hc, Hnn, Hsp.
  apply negb_true_iff, Z.eqb_neq in Hc.
  apply Forall_cons in Hnn as [Hh Hr].
  apply Forall_cons in Hsp as [(o & Hin & Hsh) Hsr].
  unfold shrinking. cbn.
  destruct (Z.eqb_spec (QUANTITY head - Z.min (QUANTITY (ls_order st)) (QUANTITY head)) 0).
  - split; [assumption|]. split; [lia|]. split; [|assumption].
    apply shrunk_sub; [assumption|lia].
  - split; [constructor; [cbn; lia|assumption]|]. split; [lia|].
    split; [apply shrunk_sub; [assumption|lia]|].
    constructor; [|assumption]. exists o. split; [assumption|].
    apply shrunk_sub; [assumption|lia].
Qed.

(** Whatever the quantities, a pass leaves a positive quantity to a front
    order that stays, and no negative quantity to the incoming order. *)
Lemma loop_body_positive (st st' : loop_state) :
  Forall (fun o => 0 < QUANTITY o) (ls_pending st) ->
  loop_body st = Ok st' ->
  Forall (fun o => 0 < QUANTITY o) (ls_pending st') /\
  0 <= QUANTITY (ls_order st').
Proof.
  intros Hpos Hb.
  apply loop_body_Ok in Hb as (head & rest & p & Hp & _ & ->).
  rewrite Hp in Hpos. apply Forall_cons in Hpos as [Hh Hr]. cbn.
  split; [|lia].
  destruct (Z.eqb_spec (QUANTITY head - Z.min (QUANTITY (ls_order st)) (QUANTITY head)) 0);
    [assumption|].
  constructor; [cbn; lia|assumption].
Qed.

Lemma Forall_shrunk_refl (P : Order -> Prop) (pending : list Order) :
  (forall o, o ∈ pending -> P o) ->
  Forall (fun o' => exists o, P o /\ shrunk o' o) pending.
Proof.
  intros H. apply Forall_forall. intros o Hin. exists o.
  split; [now apply H|apply shrunk_refl].
Qed.

Lemma place_order_shrinks (self self' : OrderManagementSystem) (order : Order)
    (lines : list string) :
  nonneg_backlogs self -> 0 <= QUANTITY order ->
  place_order self order = Ok (self', lines) ->
  nonneg_backlogs self' /\
  forall symbol,
    Forall (fun o' =>
              exists o, (o ∈ backlog self symbol \/ o = order) /\ shrunk o' o)
           (backlog self' symbol).
Proof.
  intros Hnn Ho Hp.
  apply place_order_Ok in Hp
    as [(_ & -> & _)|(head & rest & st & Hb & _ & Hw & _ & ->)].
  - split; intros symbol; destruct (decide (SYMBOL order = symbol)) as [<-|Hne];
      rewrite ?backlog_set_eq, ?backlog_set_ne by assumption.
    + apply Forall_app. split; [apply Hnn|]. repeat constructor. assumption.
    + apply Hnn.
    + apply Forall_shrunk_refl. intros o Hin.
      apply elem_of_app in Hin as [Hin|Hin]; [now left|].
      apply list_elem_of_singleton in Hin. now right.
    + apply Forall_shrunk_refl. intros o Hin. now left.
  - apply (while_loop_invariant
             (shrinking (backlog self (SYMBOL order)) order)) in Hw
      as [(Hnn' & Ho' & Hso & Hsp) Hc].
    2: { intros st0 st1. apply loop_body_shrinking. }
    2: { split; [apply Hnn|]. split; [exact Ho|]. split; [apply shrunk_refl|].
         cbn. apply Forall_shrunk_refl. auto. }
    split; intros symbol; destruct (decide (SYMBOL order = symbol)) as [<-|Hne];
      rewrite ?backlog_set_eq, ?backlog_set_ne by assumption.
    + destruct (Z.eqb_spec (QUANTITY (ls_order st)) 0); [assumption|].
      apply Forall_app. split; [assumption|]. repeat constructor. assumption.
    + apply Hnn.
    + assert (Hsp' : Forall (fun o' => exists o,
                         (o ∈ backlog self (SYMBOL order) \/ o = order) /\ shrunk o' o)
                       (ls_pending st)).
      { eapply Forall_impl; [exact Hsp|]. cbn. intros o' (o & Hin & Hsh).
        exists o. auto. }
      destruct (Z.eqb_spec (QUANTITY (ls_order st)) 0); [assumption|].
      apply Forall_app. split; [assumption|]. repeat constructor.
      exists order. auto.
    + apply Forall_shrunk_refl. intros o Hin. now left.
Qed.

Lemma place_order_positive (self self' : OrderManagementSystem) (order : Order)
    (lines : list string) :
  positive_backlogs self -> 0 < QUANTITY order ->
  place_order self order = Ok (self', lines) ->
  positive_backlogs self'.
Proof.
  intros Hpos Ho Hp symbol.
  destruct (decide (SYMBOL order = symbol)) as [<-|Hne].
  2: { apply place_order_Ok in Hp as [(_ & -> & _)|(? & ? & ? & _ & _ & _ & _ & ->)];
       rewrite backlog_set_ne by assumption; apply Hpos. }
  apply place_order_Ok in Hp
    as [(_ & -> & _)|(head & rest & st & Hb & _ & Hw & _ & ->)];
    rewrite backlog_set_eq.
  - apply Forall_app. split; [apply Hpos|]. repeat constructor. assumption.
  - apply (while_loop_invariant
             (fun s => Forall (fun o => 0 < QUANTITY o) (ls_pending s) /\
                       0 <= QUANTITY (ls_order s))) in Hw as [[Hpos' Ho'] _].
    2: { intros st0 st1 [H0 _] _. now apply loop_body_positive. }
    2: { split; [apply Hpos|cbn; lia]. }
    destruct (Z.eqb_spec (QUANTITY (ls_order st)) 0); [assumption|].
    apply Forall_app. split; [assumption|]. repeat constructor. lia.
Qed.

Lemma positive_backlogs_init : positive_backlogs init.
Proof. intros symbol. rewrite backlog_init. constructor. Qed.

Lemma place_orders_positive (orders : list Order) :
  forall (self self' : OrderManagementSystem) (lines : list string),
    positive_backlogs self -> Forall (fun o => 0 < QUANTITY o) orders ->
    place_orders self orders = Ok (self', lines) ->
    positive_backlogs self'.
Proof.
  induction orders as [|order orders IH]; intros self self' lines Hpos HF; cbn.
  - now intros [= <- <-].
  - apply Forall_cons in HF as [Ho HF].
    destruct (place_order self order) as [[self1 lines1]|] eqn:Hp; [|discriminate].
    cbn. destruct (place_orders self1 orders) as [[self2 lines2]|] eqn:Hps;
      [|discriminate].
    cbn. intros [= <- <-]. eapply IH; [|exact HF|exact Hps].
    eapply place_order_positive; eassumption.
Qed.

Lemma Forall2_shrunk_refl (pending : list Order) : Forall2 shrunk pending pending.
Proof. induction pending; constructor; [apply shrunk_refl|assumption]. Qed.

Lemma drop_cons_next (k : nat) (l l' : list Order) (x : Order) :
  drop k l = x :: l' -> drop (S k) l = l'.
Proof.
  intros H. replace (S k) with (k + 1)%nat by lia.
  rewrite <- drop_drop, H. reflexivity.
Qed.

Lemma loop_body_in_place pending0 order0 (st st' : loop_state) :
  shrinking_in_place pending0 order0 st -> loop_body st = Ok st' ->
  shrinking_in_place pending0 order0 st'.
Proof.
  intros (Hnn & Ho & Hso & k & Hk) Hb.
  apply loop_body_Ok in Hb as (head & rest & p & Hp & _ & ->).
  rewrite Hp in Hnn, Hk.
  apply Forall_cons in Hnn as [Hh Hr].
  apply Forall2_cons_inv_l in Hk as (x & kept & Hx & Hkept & Hd).
  unfold shrinking_in_place. cbn.
  assert (Hq : 0 <= Z.min (QUANTITY (ls_order st)) (QUANTITY head)) by lia.
  split; [|split; [lia|split; [now apply shrunk_sub|]]].
  - destruct (_ =? 0); [assumption|]. constructor; [cbn; lia|assumption].
  - destruct (_ =? 0).
    + exists (S k). now rewrite (drop_cons_next _ _ _ _ Hd).
    + exists k. rewrite Hd. constructor; [now apply shrunk_sub|assumption].
Qed.

(** What a call leaves of the backlog of its symbol, order by order. *)
Lemma place_order_remains (self self' : OrderManagementSystem) (order : Order)
    (lines : list string) :
  nonneg_backlogs self -> 0 <= QUANTITY order ->
  place_order self order = Ok (self', lines) ->
  remains_of (backlog self' (SYMBOL order)) (backlog self (SYMBOL order) ++ [order]) /\
  forall symbol, symbol <> SYMBOL order ->
                 backlog self' symbol = backlog self symbol.
Proof.
  intros Hnn Ho Hp.
  apply place_order_Ok in Hp
    as [(_ & -> & _)|(head & rest & st & Hb & _ & Hw & _ & ->)];
    (split; [rewrite backlog_set_eq|intros symbol Hne; now apply backlog_set_ne]).
  - exists (backlog self (SYMBOL order) ++ [order]).
    split; [reflexivity|apply Forall2_shrunk_refl].
  - apply (while_loop_invariant
             (shrinking_in_place (backlog self (SYMBOL order)) order)) in Hw
      as [(_ & _ & Hso & k & Hk) _].
    2: { intros st0 st1 H0 _. now apply loop_body_in_place. }
    2: { split; [apply Hnn|]. split; [exact Ho|]. split; [apply shrunk_refl|].
         exists 0%nat. cbn. apply Forall2_shrunk_refl. }
    destruct (QUANTITY (ls_order st) =? 0).
    + exists (drop k (backlog self (SYMBOL order))). split; [|assumption].
      apply sublist_inserts_r, sublist_drop.
    + exists (drop k (backlog self (SYMBOL order)) ++ [order]). split.
      * apply sublist_app; [apply sublist_drop|reflexivity].
      * apply Forall2_app; [assumption|]. constructor; [assumption|constructor].
Qed.

(** C8, as the code has it.  With quantities that are not negative, what
    [place_order] leaves in the backlog of its symbol are orders that were
    there or the incoming order, each one once and in the order they had,
    each with a quantity that did not grow, and the other backlogs are as
    they were; a resting order whose quantity reaches zero in a match is
    popped in the same pass.  An order of quantity zero that opens or
    extends a position is appended, and rests with quantity zero.  An order
    placed with a positive quantity on backlogs of positive quantities
    leaves positive quantities only, so no backlog holds an order of
    quantity zero after any sequence of orders of positive quantity. *)
Theorem resting_quantities_shrink :
  (forall self order self' lines,
      nonneg_backlogs self -> 0 <= QUANTITY order ->
      place_order self order = Ok (self', lines) ->
      nonneg_backlogs self' /\
      remains_of (backlog self' (SYMBOL order))
                 (backlog self (SYMBOL order) ++ [order]) /\
      forall symbol, symbol <> SYMBOL order ->
                     backlog self' symbol = backlog self symbol) /\
  (forall st st' head rest,
      ls_pending st = head :: rest -> loop_body st = Ok st' ->
      QUANTITY head - Z.min (QUANTITY (ls_order st)) (QUANTITY head) = 0 ->
      ls_pending st' = rest) /\
  (forall self order,
      QUANTITY order = 0 ->
      (backlog self (SYMBOL order) = []
       \/ exists head rest,
            backlog self (SYMBOL order) = head :: rest /\
            buy_or_sell order /\ SIDE head = SIDE order) ->
      exists self',
        place_order self order = Ok (self', []) /\
        backlog self' (SYMBOL order) = backlog self (SYMBOL order) ++ [order] /\
        Exists (fun o => QUANTITY o = 0) (backlog self' (SYMBOL order))) /\
  (forall self order self' lines,
      positive_backlogs self -> 0 < QUANTITY order ->
      place_order self order = Ok (self', lines) ->
      positive_backlogs self') /\
  (forall orders self' lines,
      Forall (fun o => 0 < QUANTITY o) orders ->
      place_orders init orders = Ok (self', lines) ->
      forall symbol, Forall (fun o => QUANTITY o <> 0) (backlog self' symbol)).
Proof.
  split; [|split; [|split; [|split]]].
  - intros self order self' lines Hnn Ho Hp.
    split; [exact (proj1 (place_order_shrinks _ _ _ _ Hnn Ho Hp))|].
    now apply (place_order_remains self self' order lines).
  - intros st st' head rest Hp Hb Hz.
    apply loop_body_Ok in Hb as (head' & rest' & p & Hp' & _ & ->).
    rewrite Hp in Hp'. injection Hp' as <- <-. cbn.
    now apply Z.eqb_eq in Hz as ->.
  - intros self order Hz H.
    exists (set_backlog self (SYMBOL order)
              (backlog self (SYMBOL order) ++ [order]) (total self)).
    split.
    + apply place_order_append.
      destruct H as [Hb|(head & rest & Hb & _ & Hs)]; [now left|right].
      exists head, rest. split; [exact Hb|].
      unfold same_side. rewrite Hs. apply String.eqb_refl.
    + rewrite backlog_set_eq. split; [reflexivity|].
      apply Exists_app. right. now constructor.
  - intros self order self' lines. apply place_order_positive.
  - intros orders self' lines HF Hp symbol.
    eapply Forall_impl;
      [exact (place_orders_positive orders init self' lines
                positive_backlogs_init HF Hp symbol)|].
    cbn. intros; lia.
Qed.

Lemma resting_quantities_shrink_witness :
  Forall (fun o => QUANTITY o <> 0) (backlog (with_X [on_X 2 "B" 11 20] 110) "X").
Proof.
  apply (proj2 (proj2 (proj2 (proj2 resting_quantities_shrink)))
           [on_X 1 "B" 10 50; on_X 2 "B" 11 30; on_X 3 "S" 12 60]
           (with_X [on_X 2 "B" 11 20] 110)
           ["1,3,X,50,100.00,B,S,10.00,12.00"; "2,3,X,10,10.00,B,S,11.00,12.00"]).
  - repeat constructor.
  - vm_compute. reflexivity.
Defined.

(** An order of quantity zero that opens a position rests in the backlog
    with quantity zero. *)
Example place_order_rests_zero :
  place_orders init [on_X 1 "B" 10 0] = Ok (with_X [on_X 1 "B" 10 0] 0, []).
Proof. vm_compute. reflexivity. Qed.

Lemma resting_quantities_counterexample :
  ~ (forall orders self' lines,
        Forall (fun o => 0 <= QUANTITY o) orders ->
        place_orders init orders = Ok (self', lines) ->
        forall symbol, Forall (fun o => QUANTITY o <> 0) (backlog self' symbol)).
Proof.
  intros H.
  specialize (H [on_X 1 "B" 10 0] (with_X [on_X 1 "B" 10 0] 0) []).
  assert (HF : Forall (fun o => 0 <= QUANTITY o) [on_X 1 "B" 10 0]).
  { repeat constructor. discriminate. }
  specialize (H HF place_order_rests_zero "X").
  apply Forall_cons in H as [H _]. now apply H.
Qed.

(** ** Orders of quantity zero *)

Lemma sub_QUANTITY_0 (order : Order) : sub_QUANTITY order 0 = order.
Proof. destruct order. unfold sub_QUANTITY. cbn. now rewrite Z.sub_0_r. Qed.

(** An incoming order of quantity zero: nothing is matched. *)
Lemma place_order_zero (self : OrderManagementSystem) (order : Order) :
  QUANTITY order = 0 ->
  exists self',
    place_order self order = Ok (self', []) /\
    total self' = total self /\
    (backlog self' (SYMBOL order) = backlog self (SYMBOL order) ++ [order]
     \/ backlog self' (SYMBOL order) = backlog self (SYMBOL order)).
Proof.
  intros Hq. unfold place_order. cbn zeta.
  destruct (backlog self (SYMBOL order)) as [|head rest] eqn:Hb.
  - eexists. split; [reflexivity|]. split; [reflexivity|]. left. apply backlog_set_eq.
  - destruct (same_side order head).
    + eexists. split; [reflexivity|]. split; [reflexivity|]. left. apply backlog_set_eq.
    + rewrite while_loop_eq.
      replace (loop_cond _) with false by (unfold loop_cond; cbn; now rewrite Hq).
      cbn. rewrite Hq. cbn.
      eexists. split; [reflexivity|]. split; [reflexivity|]. right.
      apply backlog_set_eq.
Qed.

(** A resting order of quantity zero at the front, met by an order of
    positive quantity: one pass, one line, the entry is popped. *)
Lemma loop_body_zero_head (st : loop_state) (head : Order) (rest : list Order) :
  ls_pending st = head :: rest -> QUANTITY head = 0 ->
  0 < QUANTITY (ls_order st) ->
  let order := ls_order st in
  let profit_and_loss := (PrimFloat.zero * (PRICE order - PRICE head))%float in
  exists total',
    loop_body st =
      Ok {| ls_pending := rest; ls_order := order; ls_total := total';
            ls_printed :=
              ls_printed st ++
              [String.concat ","
                 (close_order_fields order head 0 profit_and_loss)] |} /\
    (float_finite (PRICE order - PRICE head)%float = true ->
     float_same total' (ls_total st)).
Proof.
  intros Hp Hh Ho. cbn zeta. unfold loop_body, int_mul_float. rewrite Hp, Hh.
  replace (Z.min (QUANTITY (ls_order st)) 0) with 0 by lia.
  rewrite Binary64.float_of_int_0. cbn. rewrite ?Hh, !sub_QUANTITY_0.
  change (0 - 0 =? 0) with true. cbn iota.
  eexists. split; [reflexivity|]. intros Hfin.
  destruct (Binary64.zero_mul_finite _ Hfin) as [s Hs].
  destruct (Binary64.add_sub_zero_same (ls_total st) _ s Hs) as [Hadd Hsub].
  destruct (String.eqb (SIDE (ls_order st)) "B"); assumption.
Qed.

(** C6, as the code has it: an order of quantity zero is placed without a
    match, without a failure and without a change of the total.  When it
    rests at the front of a backlog, the next order of positive quantity
    from the other side matches it once with quantity 0: one line with
    [QUANTITY] 0 is printed, the entry is popped, the incoming order keeps
    its quantity, and the total keeps its value when the difference of the
    two prices is finite. *)
Theorem zero_quantity_order :
  (forall self order,
      QUANTITY order = 0 ->
      exists self',
        place_order self order = Ok (self', []) /\
        total self' = total self /\
        (backlog self' (SYMBOL order) = backlog self (SYMBOL order) ++ [order]
         \/ backlog self' (SYMBOL order) = backlog self (SYMBOL order))) /\
  (forall st head rest,
      ls_pending st = head :: rest -> QUANTITY head = 0 ->
      0 < QUANTITY (ls_order st) ->
      exists st',
        let profit_and_loss :=
          (PrimFloat.zero * (PRICE (ls_order st) - PRICE head))%float in
        loop_body st = Ok st' /\
        ls_pending st' = rest /\
        ls_order st' = ls_order st /\
        ls_printed st' =
          ls_printed st ++
          [String.concat ","
             (close_order_fields (ls_order st) head 0 profit_and_loss)] /\
        (float_finite (PRICE (ls_order st) - PRICE head)%float = true ->
         float_same (ls_total st') (ls_total st))).
Proof.
  split; [exact place_order_zero|].
  intros st head rest Hp Hh Ho.
  destruct (loop_body_zero_head st head rest Hp Hh Ho) as (total' & Hb & Hsame).
  eexists. split; [exact Hb|]. cbn. auto.
Qed.

Lemma zero_quantity_order_witness :
  exists self',
    place_order (with_X [on_X 1 "S" 12 5] 0) (on_X 2 "B" 10 0) = Ok (self', []) /\
    total self' = 0%float.
Proof.
  destruct (proj1 zero_quantity_order (with_X [on_X 1 "S" 12 5] 0) (on_X 2 "B" 10 0))
    as (self' & Hp & Ht & _).
  - reflexivity.
  - exists self'. split; [exact Hp|exact Ht].
Defined.

(** A resting order of quantity zero makes the next order from the other
    side print a line; without it that order prints nothing. *)
Example place_orders_zero_entry_prints :
  place_orders init [on_X 1 "B" 10 0; on_X 2 "S" 12 5]
    = Ok (with_X [on_X 2 "S" 12 5] 0, ["1,2,X,0,0.00,B,S,10.00,12.00"]) /\
  place_orders init [on_X 2 "S" 12 5] = Ok (with_X [on_X 2 "S" 12 5] 0, []) /\
  place_order (with_X [on_X 1 "B" 10 0] 0) (on_X 2 "S" 12 5)
    = Ok (with_X [on_X 2 "S" 12 5] 0, ["1,2,X,0,0.00,B,S,10.00,12.00"]).
Proof. repeat split; vm_compute; reflexivity. Qed.

Lemma zero_quantity_counterexample :
  ~ (forall self order self' lines,
        Forall (fun o => QUANTITY o = 0) (backlog self (SYMBOL order)) ->
        place_order self order = Ok (self', lines) ->
        lines = []).
Proof.
  intros H.
  specialize (H (with_X [on_X 1 "B" 10 0] 0) (on_X 2 "S" 12 5)
                (with_X [on_X 2 "S" 12 5] 0) ["1,2,X,0,0.00,B,S,10.00,12.00"]).
  assert (HF : Forall (fun o => QUANTITY o = 0)
                 (backlog (with_X [on_X 1 "B" 10 0] 0) (SYMBOL (on_X 2 "S" 12 5)))).
  { repeat constructor. }
  specialize (H HF (proj2 (proj2 place_orders_zero_entry_prints))).
  discriminate H.
Qed.

(** ** First in, first out *)

Lemma sub_QUANTITY_sub (order : Order) (a b : Z) :
  sub_QUANTITY (sub_QUANTITY order a) b = sub_QUANTITY order (a + b).
Proof. unfold sub_QUANTITY. cbn. f_equal. lia. Qed.

Lemma match_of_sub (order : Order) (quantity : Z) (m : trade) :
  match_of (sub_QUANTITY order quantity) m -> match_of order m.
Proof.
  intros [[k Hk] Hm]. split; [|assumption].
  exists (quantity + k). now rewrite Hk, sub_QUANTITY_sub.
Qed.

Lemma while_loop_fifo (st : loop_state) :
  forall st', while_loop st = Ok st' ->
    exists ms,
      fifo_matches (ls_pending st) (ls_order st) (ls_printed st) st' ms /\
      (loop_cond st = false -> ms = [] /\ st' = st).
Proof.
  apply (while_loop_ind
           (fun st r => forall st', r = Ok st' ->
              exists ms,
                fifo_matches (ls_pending st) (ls_order st) (ls_printed st) st' ms /\
                (loop_cond st = false -> ms = [] /\ st' = st))).
  - intros st0 Hc st' [= <-]. exists []. split; [|auto].
    unfold fifo_matches. cbn. rewrite app_nil_r.
    split; [reflexivity|]. split; [reflexivity|]. split; [constructor|].
    left. split; [constructor|reflexivity].
  - intros st0 e _ _ st' [=].
  - intros st0 st1 r Hc Hb IH st' Hr.
    destruct (IH st' Hr) as (ms1 & (Hpr & Hres & Hof & Hrem) & Hstop).
    apply loop_body_Ok in Hb as (head & rest & p & Hp & _ & ->).
    cbn [ls_pending ls_printed ls_order] in *.
    set (order := ls_order st0) in *.
    set (q := Z.min (QUANTITY order) (QUANTITY head)) in *.
    set (m := {| resting := head; incoming := order; matched := q; pnl := p |}).
    assert (Hm : match_of order m).
    { split; [exists 0; cbn; now rewrite sub_QUANTITY_0|reflexivity]. }
    rewrite Hp.
    destruct (Z.eqb_spec (QUANTITY head - q) 0) as [Hz|Hnz].
    + (* the front order is used up and popped *)
      exists (m :: ms1). split; [|rewrite Hc; discriminate].
      unfold fifo_matches. cbn [length map take drop].
      split; [rewrite Hpr, <- app_assoc; reflexivity|].
      split; [cbn; now rewrite Hres|].
      split.
      { constructor; [assumption|].
        eapply Forall_impl; [exact Hof|]. apply match_of_sub. }
      assert (Hfull_m : in_full m) by (unfold in_full; cbn; lia).
      destruct Hrem as [[Hfull Hrem]|(ms0 & m' & -> & Hfull & Hne & Hrem)].
      * left. split; [constructor; assumption|assumption].
      * right. exists (m :: ms0), m'. split; [reflexivity|].
        split; [constructor; assumption|]. split; assumption.
    + (* the incoming order is used up: the loop stops *)
      destruct Hstop as [-> ->].
      { unfold loop_cond. cbn. apply negb_false_iff, Z.eqb_eq. lia. }
      exists [m]. split; [|rewrite Hc; discriminate].
      unfold fifo_matches. cbn.
      split; [reflexivity|]. split; [reflexivity|].
      split; [constructor; [assumption|constructor]|].
      right. exists [], m. split; [reflexivity|]. split; [constructor|]. auto.
Qed.

(** The incoming order changes in its quantity only. *)
Lemma while_loop_order (st st' : loop_state) :
  while_loop st = Ok st' ->
  exists quantity, ls_order st' = sub_QUANTITY (ls_order st) quantity.
Proof.
  intros Hw.
  apply (while_loop_invariant
           (fun s => exists quantity, ls_order s = sub_QUANTITY (ls_order st) quantity))
    in Hw as [H _]; [exact H| |].
  - intros st0 st1 [k Hk] _ Hb.
    apply loop_body_Ok in Hb as (head & rest & p & _ & _ & ->). cbn.
    exists (k + Z.min (QUANTITY (ls_order st0)) (QUANTITY head)).
    rewrite Hk. apply sub_QUANTITY_sub.
  - exists 0. now rewrite sub_QUANTITY_0.
Qed.

(** C2: an order from the other side is matched against the backlog from
    its front.  The lines printed by the call are the lines of matches
    [ms] of the incoming order; the i-th match is against the i-th resting
    order of the backlog, so the lines come oldest first; every match
    before the last takes its resting order in full, so nothing is applied
    to a resting order before those that rest before it are used up; the
    orders behind the last match are left as they were. *)
Theorem fifo_order (self self' : OrderManagementSystem) (order head : Order)
    (rest : list Order) (lines : list string) :
  backlog self (SYMBOL order) = head :: rest ->
  same_side order head = false ->
  place_order self order = Ok (self', lines) ->
  let pending := head :: rest in
  exists ms : list trade,
    lines = map trade_line ms /\
    map resting ms = take (length ms) pending /\
    Forall (match_of order) ms /\
    (Forall in_full ms /\
     (backlog self' (SYMBOL order) = drop (length ms) pending
      \/ length ms = length pending /\
         exists quantity,
           backlog self' (SYMBOL order) = [sub_QUANTITY order quantity])
     \/ exists ms0 m,
          ms = ms0 ++ [m] /\ Forall in_full ms0 /\
          QUANTITY (resting m) - matched m <> 0 /\
          backlog self' (SYMBOL order) =
            sub_QUANTITY (resting m) (matched m) :: drop (length ms) pending).
Proof.
  intros Hb Hs Hp. cbn zeta.
  apply place_order_Ok in Hp
    as [(_ & _ & [Hnil|(h & r & Hb' & Hs')])|(h & r & st & _ & _ & Hw & -> & ->)].
  - rewrite Hb in Hnil. discriminate.
  - rewrite Hb in Hb'. injection Hb' as <- <-. congruence.
  - rewrite Hb in Hw. rewrite backlog_set_eq.
    destruct (while_loop_order _ _ Hw) as [k Hk]. cbn in Hk.
    destruct (while_loop_outcome
                {| ls_pending := head :: rest; ls_order := order;
                   ls_total := total self; ls_printed := [] |})
      as [(st2 & Hw2 & Hc)|Hw2]; [|congruence].
    rewrite Hw in Hw2. injection Hw2 as <-.
    destruct (while_loop_fifo _ _ Hw) as (ms & (Hpr & Hres & Hof & Hrem) & _).
    cbn in Hpr, Hres, Hof, Hrem. exists ms.
    split; [exact Hpr|]. split; [exact Hres|]. split; [exact Hof|].
    destruct (Z.eqb_spec (QUANTITY (ls_order st)) 0) as [Hq|Hq].
    + destruct Hrem as [[Hfull Hrem]|Hrem]; [left|right; exact Hrem].
      split; [assumption|]. now left.
    + apply loop_cond_false in Hc as [Hnil|]; [|contradiction].
      rewrite Hnil in Hrem |- *.
      destruct Hrem as [[Hfull Hrem]|(ms0 & m & _ & _ & _ & Hrem)]; [|discriminate].
      left. split; [assumption|]. right. split; [|exists k; cbn; now rewrite Hk].
      symmetry in Hrem. apply (f_equal length) in Hrem.
      rewrite length_drop in Hrem. cbn in Hrem.
      apply (f_equal length) in Hres. rewrite length_map, length_take in Hres.
      cbn in Hres |- *. lia.
Qed.

Lemma fifo_order_witness :
  exists ms : list trade,
    ["1,3,X,50,100.00,B,S,10.00,12.00"; "2,3,X,10,10.00,B,S,11.00,12.00"]
      = map trade_line ms /\
    map resting ms = take (length ms) [on_X 1 "B" 10 50; on_X 2 "B" 11 30].
Proof.
  destruct (fifo_order
              (with_X [on_X 1 "B" 10 50; on_X 2 "B" 11 30] 0)
              (with_X [on_X 2 "B" 11 20] 110)
              (on_X 3 "S" 12 60) (on_X 1 "B" 10 50) [on_X 2 "B" 11 30]
              ["1,3,X,50,100.00,B,S,10.00,12.00"; "2,3,X,10,10.00,B,S,11.00,12.00"]
              eq_refl eq_refl)
    as (ms & Hlines & Hres & _).
  - vm_compute. reflexivity.
  - exists ms. split; [exact Hlines|exact Hres].
Defined.

(** ** The closed-trade line *)

Module Decimal.

Lemma is_digit_pretty_N_char (x : N) : is_digit (pretty_N_char x) = true.
Proof. unfold pretty_N_char. repeat case_match; reflexivity. Qed.

Lemma all_digits_pretty_N_go (x : N) :
  forall s, all_digits s = true -> all_digits (pretty_N_go x s) = true.
Proof.
  induction (N.lt_wf_0 x) as [x _ IH]. intros s Hs.
  destruct (decide (x = 0)%N) as [->|Hx]; [exact Hs|].
  rewrite pretty_N_go_step by lia. apply IH.
  - apply N.div_lt; lia.
  - cbn. now rewrite is_digit_pretty_N_char.
Qed.

Lemma pretty_N_go_nonempty (x : N) :
  forall s, s <> EmptyString -> pretty_N_go x s <> EmptyString.
Proof.
  induction (N.lt_wf_0 x) as [x _ IH]. intros s Hs.
  destruct (decide (x = 0)%N) as [->|Hx]; [exact Hs|].
  rewrite pretty_N_go_step by lia. apply IH; [apply N.div_lt; lia|discriminate].
Qed.

(** The decimal notation of a natural number: digits, at least one. *)
Lemma pretty_Z_digits (n : Z) :
  0 <= n -> all_digits (pretty n) = true /\ starts_with_digit (pretty n) = true.
Proof.
  intros Hn.
  assert (H : all_digits (pretty n) = true /\ pretty n <> EmptyString).
  { destruct n as [|p|p]; [split; [reflexivity|discriminate]| |lia].
    change (pretty (Z.pos p)) with (pretty_N_go (N.pos p) "").
    split; [now apply all_digits_pretty_N_go|].
    rewrite pretty_N_go_step by lia. apply pretty_N_go_nonempty. discriminate. }
  destruct H as [Hd Hne]. split; [assumption|].
  destruct (pretty n) as [|c s']; [congruence|].
  cbn in Hd |- *. now apply andb_true_iff in Hd as [-> _].
Qed.

Lemma digits_point_2_app (a : string) (d1 d2 : Z) :
  all_digits a = true ->
  digits_point_2 (a +:+ "." +:+ digit d1 +:+ digit d2) = true.
Proof.
  unfold digit. induction a as [|c a IH]; simpl.
  - intros _. now rewrite !is_digit_pretty_N_char.
  - intros H. apply andb_true_iff in H as [Hc Ha].
    destruct (Ascii.eqb_spec c ".") as [->|_]; [discriminate Hc|].
    rewrite Hc. simpl. now apply IH.
Qed.

Lemma starts_with_digit_app (a b : string) :
  starts_with_digit a = true -> starts_with_digit (a +:+ b) = true.
Proof. destruct a; [discriminate|]. auto. Qed.

Lemma div_half_even_nonneg (n d : Z) : 0 <= n -> 0 < d -> 0 <= div_half_even n d.
Proof.
  intros Hn Hd. unfold div_half_even.
  assert (0 <= n / d) by (apply Z.div_pos; lia).
  destruct (2 * (n mod d) ?= d); [destruct (Z.even _)|..]; lia.
Qed.

Lemma hundredths_nonneg (m : positive) (e : Z) : 0 <= hundredths m e.
Proof.
  unfold hundredths. destruct (Z.leb_spec 0 e).
  - assert (0 <= 2 ^ e) by (apply Z.pow_nonneg; lia). nia.
  - apply div_half_even_nonneg; [lia|]. apply Z.pow_pos_nonneg; lia.
Qed.

Lemma two_fraction_digits_unsigned (s : string) :
  starts_with_digit s = true -> digits_point_2 s = true ->
  two_fraction_digits s = true.
Proof.
  destruct s as [|ch rest]; [discriminate|]. intros H1 H2.
  destruct ch as [[] [] [] [] [] [] [] []]; try discriminate H1;
    cbv beta iota delta [two_fraction_digits]; now rewrite H1, H2.
Qed.

Lemma two_fraction_digits_signed (s : string) :
  starts_with_digit s = true -> digits_point_2 s = true ->
  two_fraction_digits ("-" +:+ s) = true.
Proof.
  intros H1 H2. change ("-" +:+ s) with (String "-" s).
  cbv beta iota delta [two_fraction_digits]. now rewrite H1, H2.
Qed.

(** A finite number is written with exactly two fractional digits. *)
Lemma format_2f_finite (x : float) :
  float_finite x = true -> two_fraction_digits (format_2f x) = true.
Proof.
  unfold float_finite, format_2f.
  destruct (Prim2SF x) as [s|s| |s m e]; try discriminate; intros _.
  - destruct s; reflexivity.
  - pose proof (hundredths_nonneg m e) as Hc.
    set (c := hundredths m e) in *.
    destruct (pretty_Z_digits (c / 100)) as [Hd Hs]; [apply Z.div_pos; lia|].
    assert (H1 := starts_with_digit_app (pretty (c / 100))
                    ("." +:+ digit (c / 10 mod 10) +:+ digit (c mod 10)) Hs).
    assert (H2 := digits_point_2_app (pretty (c / 100)) (c / 10 mod 10) (c mod 10) Hd).
    destruct s; cbn [sign_str].
    + now apply two_fraction_digits_signed.
    + now apply two_fraction_digits_unsigned.
Qed.

Lemma format_2f_not_finite (x : float) :
  float_finite x = false ->
  format_2f x = "nan" \/ format_2f x = "inf" \/ format_2f x = "-inf".
Proof.
  unfold float_finite, format_2f.
  destruct (Prim2SF x) as [s|s| |s m e]; try discriminate; intros _; auto.
  destruct s; auto.
Qed.

End Decimal.

(** C9, as the code has it: the line of a closed trade is a function of
    the resting order at the front of the deque, the closing order, the
    quantity and the profit or loss.  Its nine fields are, in this order,
    the opening time, the closing time, the symbol, the quantity, the profit
    or loss, the opening side, the closing side, the opening price and the
    closing price.  The closing side is [S] when the opening side is [B] and
    [B] otherwise, whatever the side and the quantity of the closing order.
    The profit or loss and the two prices are written with exactly two
    fractional digits when they are finite; [nan] and the infinities are
    written [nan], [inf] and [-inf]. *)
Theorem close_order_line :
  (forall order head rest quantity profit_and_loss,
      close_order order (head :: rest) quantity profit_and_loss =
      Ok (String.concat ","
            [ pretty (TIME head); pretty (TIME order); SYMBOL order;
              pretty quantity; format_2f profit_and_loss; SIDE head;
              (if String.eqb (SIDE head) "B" then "S" else "B");
              format_2f (PRICE head); format_2f (PRICE order) ])) /\
  (forall order head rest rest' quantity profit_and_loss side' quantity',
      close_order
        {| TIME := TIME order; SYMBOL := SYMBOL order; SIDE := side';
           PRICE := PRICE order; QUANTITY := quantity' |}
        (head :: rest') quantity profit_and_loss
      = close_order order (head :: rest) quantity profit_and_loss) /\
  (forall x : float,
      if float_finite x then two_fraction_digits (format_2f x) = true
      else format_2f x = "nan" \/ format_2f x = "inf" \/ format_2f x = "-inf").
Proof.
  split; [reflexivity|]. split; [reflexivity|].
  intros x. destruct (float_finite x) eqn:Hx.
  - now apply Decimal.format_2f_finite.
  - now apply Decimal.format_2f_not_finite.
Qed.

(** An infinite price is written [inf], without fractional digits. *)
Example place_orders_infinite_price :
  place_orders init [on_X 1 "B" 10 1; on_X 2 "S" infinity 1]
    = Ok (with_X [] infinity, ["1,2,X,1,inf,B,S,10.00,inf"]) /\
  format_2f infinity = "inf".
Proof. split; vm_compute; reflexivity. Qed.

(** With finite prices the profit or loss can still overflow: two units
    bought at [2^1023] and sold at [0] lose [-inf]. *)
Example place_orders_infinite_pnl :
  place_orders init [on_X 1 "B" 0x1p1023 2; on_X 2 "S" 0 2]
    = Ok (with_X [] neg_infinity,
          [trade_line {| resting := on_X 1 "B" 0x1p1023 2;
                         incoming := on_X 2 "S" 0 2;
                         matched := 2; pnl := neg_infinity |}]) /\
  close_order_fields (on_X 2 "S" 0 2) (on_X 1 "B" 0x1p1023 2) 2 neg_infinity
    !! 4%nat = Some "-inf".
Proof. split; vm_compute; reflexivity. Qed.

Lemma close_order_counterexample :
  ~ (forall order head rest quantity profit_and_loss,
        float_finite (PRICE head) = true -> float_finite (PRICE order) = true ->
        int_mul_float quantity (PRICE order - PRICE head)%float = Ok profit_and_loss ->
        exists line,
          close_order order (head :: rest) quantity profit_and_loss = Ok line /\
          two_fraction_digits (format_2f profit_and_loss) = true /\
          two_fraction_digits (format_2f (PRICE head)) = true /\
          two_fraction_digits (format_2f (PRICE order)) = true).
Proof.
  intros H.
  destruct (H (on_X 2 "S" 0 2) (on_X 1 "B" 0x1p1023 2) [] 2 neg_infinity)
    as (line & _ & Hpnl & _); try (vm_compute; reflexivity).
  vm_compute in Hpnl. discriminate Hpnl.
Qed.

(** * Further properties of [place_order], [run] and [main] *)

(** ** The ledger of a call *)

Lemma rests_in_head (head : Order) (rest : list Order) (m : trade) :
  resting m = head -> rests_in (head :: rest) m.
Proof.
  intros Hr. exists head, 0. split; [apply list_elem_of_here|].
  now rewrite sub_QUANTITY_0.
Qed.

Lemma rests_in_rest (head : Order) (rest : list Order) (m : trade) :
  rests_in rest m -> rests_in (head :: rest) m.
Proof.
  intros (o & k & Hin & Hr). exists o, k. split; [now apply list_elem_of_further|assumption].
Qed.

Lemma rests_in_sub_head (head : Order) (rest : list Order) (q : Z) (m : trade) :
  rests_in (sub_QUANTITY head q :: rest) m -> rests_in (head :: rest) m.
Proof.
  intros (o & k & Hin & Hr). apply elem_of_cons in Hin as [->|Hin].
  - exists head, (q + k). split; [apply list_elem_of_here|].
    now rewrite Hr, sub_QUANTITY_sub.
  - exists o, k. split; [now apply list_elem_of_further|assumption].
Qed.

Lemma while_loop_ledger (st : loop_state) :
  forall st', while_loop st = Ok st' -> exists ms, ledger st st' ms.
Proof.
  apply (while_loop_ind
           (fun st r => forall st', r = Ok st' -> exists ms, ledger st st' ms)).
  - intros st0 _ st' [= <-]. exists []. unfold ledger. cbn.
    rewrite app_nil_r. repeat split; try constructor; lia.
  - intros st0 e _ _ st' [=].
  - intros st0 st1 r Hc Hb IH st' Hr.
    destruct (IH st' Hr) as (ms1 & Hpr & Hpriced & Hof & Hin & Htot & Hq & Hsum).
    apply loop_body_Ok in Hb as (head & rest & p & Hp & Hpnl & ->).
    cbn [ls_pending ls_printed ls_order ls_total] in *.
    set (order := ls_order st0) in *.
    set (q := Z.min (QUANTITY order) (QUANTITY head)) in *.
    set (m := {| resting := head; incoming := order; matched := q; pnl := p |}).
    exists (m :: ms1). unfold ledger. rewrite Hp.
    split; [rewrite Hpr, <- app_assoc; reflexivity|].
    split; [constructor; [exact Hpnl|exact Hpriced]|].
    split.
    { constructor.
      - split; [exists 0; cbn; now rewrite sub_QUANTITY_0|reflexivity].
      - eapply Forall_impl; [exact Hof|]. apply match_of_sub. }
    split.
    { constructor; [now apply rests_in_head|].
      eapply Forall_impl; [exact Hin|]. intros m' Hm'.
      destruct (QUANTITY head - q =? 0);
        [now apply rests_in_rest|now apply (rests_in_sub_head head rest q)]. }
    split; [exact Htot|].
    change (QUANTITY (sub_QUANTITY order q)) with (QUANTITY order - q) in Hq.
    change (sum_matched (m :: ms1)) with (q + sum_matched ms1).
    split; [subst q order; lia|].
    rewrite Hsum.
    destruct (Z.eqb_spec (QUANTITY head - q) 0) as [Hz|Hz];
      cbn [sum_quantities sub_QUANTITY QUANTITY]; lia.
Qed.

(** [place_order] on the other side of a backlog, with the ledger of its
    loop and the state at the exit. *)
Lemma place_order_matches (self self' : OrderManagementSystem) (order head : Order)
    (rest : list Order) (lines : list string) :
  backlog self (SYMBOL order) = head :: rest ->
  same_side order head = false ->
  place_order self order = Ok (self', lines) ->
  exists st' ms,
    let st := {| ls_pending := head :: rest; ls_order := order;
                 ls_total := total self; ls_printed := [] |} in
    while_loop st = Ok st' /\ ledger st st' ms /\ loop_cond st' = false /\
    lines = map trade_line ms /\
    self' = set_backlog self (SYMBOL order)
              (if QUANTITY (ls_order st') =? 0 then ls_pending st'
               else ls_pending st' ++ [ls_order st'])
              (ls_total st').
Proof.
  intros Hb Hs Hp.
  apply place_order_Ok in Hp
    as [(_ & _ & [Hnil|(h & r & Hb' & Hs')])|(h & r & st' & _ & _ & Hw & -> & ->)].
  - rewrite Hb in Hnil. discriminate.
  - rewrite Hb in Hb'. injection Hb' as <- <-. congruence.
  - rewrite Hb in Hw. destruct (while_loop_ledger _ _ Hw) as [ms Hl].
    destruct (while_loop_outcome
                {| ls_pending := head :: rest; ls_order := order;
                   ls_total := total self; ls_printed := [] |})
      as [(st2 & Hw2 & Hc)|Hw2]; [|congruence].
    rewrite Hw in Hw2. injection Hw2 as <-.
    exists st', ms. cbn zeta. split; [exact Hw|]. split; [exact Hl|].
    split; [exact Hc|]. split; [apply Hl|]. reflexivity.
Qed.

(** The two ways of a call: the order is appended, or it is matched. *)
Lemma place_order_cases (self self' : OrderManagementSystem) (order : Order)
    (lines : list string) :
  place_order self order = Ok (self', lines) ->
  (lines = [] /\
   self' = set_backlog self (SYMBOL order)
             (backlog self (SYMBOL order) ++ [order]) (total self))
  \/ exists head rest,
       backlog self (SYMBOL order) = head :: rest /\
       same_side order head = false.
Proof.
  intros Hp. apply place_order_Ok in Hp
    as [(-> & -> & _)|(h & r & st' & Hb & Hs & _)]; [now left|right; eauto].
Qed.

(** ** The matches of a call *)

(** The matches against a deque are determined by their number. *)
Lemma matches_from_unique (ms : list trade) :
  forall (pending : list Order) (order : Order) (ms' : list trade),
    matches_from pending order ms -> matches_from pending order ms' ->
    length ms' = length ms -> ms' = ms.
Proof.
  induction ms as [|m ms IH]; intros pending order [|m' ms'] H H' Hlen;
    try discriminate Hlen; [reflexivity|].
  destruct pending as [|head rest]; [contradiction|]. simpl in H, H'.
  destruct H as (_ & Hr & Hi & Hq & Hp & H).
  destruct H' as (_ & Hr' & Hi' & Hq' & Hp' & H').
  assert (Hm : m' = m).
  { destruct m as [r i q p], m' as [r' i' q' p']. unfold priced in Hp, Hp'.
    cbn in *. subst. rewrite Hp in Hp'. now injection Hp' as <-. }
  subst m'. f_equal. apply (IH rest (sub_QUANTITY order (matched m))); auto.
Qed.

Lemma matches_from_resting (ms : list trade) :
  forall (pending : list Order) (order : Order),
    matches_from pending order ms -> Forall (fun m => resting m ∈ pending) ms.
Proof.
  induction ms as [|m ms IH]; intros [|head rest] order H;
    try contradiction; constructor; simpl in H;
    destruct H as (_ & Hr & _ & _ & _ & H).
  - rewrite Hr. apply list_elem_of_here.
  - eapply Forall_impl; [exact (IH _ _ H)|].
    intros m' Hin. now apply list_elem_of_further.
Qed.

Lemma matches_from_incoming (ms : list trade) :
  forall (pending : list Order) (order : Order),
    matches_from pending order ms ->
    Forall (fun m => exists quantity, incoming m = sub_QUANTITY order quantity) ms.
Proof.
  induction ms as [|m ms IH]; intros [|head rest] order H;
    try contradiction; constructor; simpl in H;
    destruct H as (_ & _ & Hi & _ & _ & H).
  - exists 0. now rewrite sub_QUANTITY_0.
  - eapply Forall_impl; [exact (IH _ _ H)|].
    intros m' [q ->]. exists (matched m + q). apply sub_QUANTITY_sub.
Qed.

(** The passes of the loop, as matches: the lines they print and the
    total they leave. *)
Lemma while_loop_matches (st : loop_state) :
  forall st', while_loop st = Ok st' ->
    exists ms,
      ls_printed st' = ls_printed st ++ map trade_line ms /\
      matches_from (ls_pending st) (ls_order st) ms /\
      ls_total st' = fold_left (post (SIDE (ls_order st))) ms (ls_total st).
Proof.
  apply (while_loop_ind
           (fun st r => forall st', r = Ok st' ->
              exists ms,
                ls_printed st' = ls_printed st ++ map trade_line ms /\
                matches_from (ls_pending st) (ls_order st) ms /\
                ls_total st'
                = fold_left (post (SIDE (ls_order st))) ms (ls_total st))).
  - intros st0 _ st' [= <-]. exists []. simpl. rewrite app_nil_r. repeat split.
  - intros st0 e _ _ st' [=].
  - intros st0 st1 r Hc Hb IH st' Hr.
    destruct (IH st' Hr) as (ms1 & Hpr & Hms & Htot).
    apply loop_body_Ok in Hb as (head & rest & p & Hp & Hpnl & ->).
    cbn [ls_pending ls_printed ls_order ls_total] in *.
    unfold loop_cond in Hc. rewrite Hp in Hc.
    apply negb_true_iff, Z.eqb_neq in Hc.
    exists ({| resting := head; incoming := ls_order st0;
               matched := Z.min (QUANTITY (ls_order st0)) (QUANTITY head);
               pnl := p |} :: ms1).
    rewrite Hp.
    split; [rewrite Hpr, <- app_assoc; reflexivity|].
    split; [|exact Htot].
    simpl. repeat (split; [first [assumption|reflexivity]|]).
    destruct (Z.eqb_spec
                (QUANTITY head - Z.min (QUANTITY (ls_order st0)) (QUANTITY head)) 0)
      as [Hz|Hz]; [exact Hms|].
    destruct ms1 as [|m1 ms1]; [exact I|].
    simpl in Hms. destruct Hms as (Hq & _). cbn in Hq. lia.
Qed.

(** The matches of a call, the lines it prints and the total it leaves. *)
Lemma place_order_ledger (self self' : OrderManagementSystem) (order : Order)
    (lines : list string) :
  place_order self order = Ok (self', lines) ->
  exists ms,
    lines = map trade_line ms /\
    matches_from (backlog self (SYMBOL order)) order ms /\
    total self' = fold_left (post (SIDE order)) ms (total self).
Proof.
  intros Hp. apply place_order_Ok in Hp
    as [(-> & -> & _)|(head & rest & st' & _ & _ & Hw & -> & ->)].
  - exists []. repeat split.
  - destruct (while_loop_matches _ _ Hw) as (ms & Hpr & Hms & Htot).
    exists ms. repeat split; assumption.
Qed.

(** ** The total and the printed trades *)

(** X1: the total after a call is the total before it with the profit or
    loss of each printed trade posted in the order of the lines: subtracted
    when the incoming order is a buy, added otherwise.  The printed trades
    are the matches of the order against the backlog of its symbol, from
    the front, one for each line, and no other list of matches is: the
    profit or loss of a trade is its quantity times the price of the
    incoming order less the price of the resting order as it rests in the
    backlog. *)
Theorem place_order_total (self self' : OrderManagementSystem) (order : Order)
    (lines : list string) :
  place_order self order = Ok (self', lines) ->
  exists ms : list trade,
    lines = map trade_line ms /\
    matches_from (backlog self (SYMBOL order)) order ms /\
    total self' = fold_left (post (SIDE order)) ms (total self) /\
    forall ms' : list trade,
      length ms' = length lines ->
      matches_from (backlog self (SYMBOL order)) order ms' -> ms' = ms.
Proof.
  intros Hp. destruct (place_order_ledger _ _ _ _ Hp) as (ms & -> & Hms & Htot).
  exists ms. repeat split; try assumption.
  intros ms' Hlen Hms'. rewrite length_map in Hlen.
  now apply (matches_from_unique ms (backlog self (SYMBOL order)) order).
Qed.

Lemma place_order_total_witness :
  exists ms : list trade,
    ["1,3,X,50,100.00,B,S,10.00,12.00"; "2,3,X,10,10.00,B,S,11.00,12.00"]
      = map trade_line ms /\
    matches_from [on_X 1 "B" 10 50; on_X 2 "B" 11 30] (on_X 3 "S" 12 60) ms /\
    110%float = fold_left (post "S") ms 0%float.
Proof.
  destruct (place_order_total
              (with_X [on_X 1 "B" 10 50; on_X 2 "B" 11 30] 0)
              (with_X [on_X 2 "B" 11 20] 110)
              (on_X 3 "S" 12 60)
              ["1,3,X,50,100.00,B,S,10.00,12.00"; "2,3,X,10,10.00,B,S,11.00,12.00"])
    as (ms & Hlines & Hms & Htot & _).
  - vm_compute. reflexivity.
  - exists ms. split; [exact Hlines|]. split; [exact Hms|exact Htot].
Defined.

(** ** Netting of quantities *)

Lemma sum_quantities_app (l1 l2 : list Order) :
  sum_quantities (l1 ++ l2) = sum_quantities l1 + sum_quantities l2.
Proof. induction l1 as [|o l1 IH]; cbn [app sum_quantities]; lia. Qed.

Lemma sum_quantities_nonneg' (pending : list Order) :
  Forall (fun o => 0 <= QUANTITY o) pending -> 0 <= sum_quantities pending.
Proof. induction 1; cbn [sum_quantities]; lia. Qed.

(** X2: an order from the other side closes as much as it can.  With
    quantities that are not negative, the quantities of the printed trades
    add up to the smaller of the incoming quantity and the quantity that
    rests, and what rests afterwards is the difference of the two. *)
Theorem place_order_nets (self self' : OrderManagementSystem) (order head : Order)
    (rest : list Order) (lines : list string) :
  backlog self (SYMBOL order) = head :: rest ->
  same_side order head = false ->
  Forall (fun o => 0 <= QUANTITY o) (head :: rest) ->
  0 <= QUANTITY order ->
  place_order self order = Ok (self', lines) ->
  exists ms : list trade,
    lines = map trade_line ms /\
    sum_matched ms = Z.min (QUANTITY order) (sum_quantities (head :: rest)) /\
    sum_quantities (backlog self' (SYMBOL order))
      = Z.abs (sum_quantities (head :: rest) - QUANTITY order).
Proof.
  intros Hb Hs Hnn Ho Hp.
  destruct (place_order_matches _ _ _ _ _ _ Hb Hs Hp)
    as (st' & ms & Hw & (_ & _ & _ & _ & _ & Hq & Hsum) & Hc & -> & ->).
  cbn [ls_order ls_pending] in Hq, Hsum.
  apply (while_loop_invariant (shrinking (head :: rest) order)) in Hw
    as [(Hnn' & Ho' & _ & _) _].
  2: { intros st0 st1. apply loop_body_shrinking. }
  2: { split; [exact Hnn|]. split; [exact Ho|]. split; [apply shrunk_refl|].
       cbn. apply Forall_shrunk_refl. auto. }
  pose proof (sum_quantities_nonneg' _ Hnn') as Hs'.
  exists ms. split; [reflexivity|]. rewrite backlog_set_eq.
  apply loop_cond_false in Hc as [Hnil|Hz].
  - rewrite Hnil in *. cbn [sum_quantities app] in *.
    split; [lia|].
    destruct (Z.eqb_spec (QUANTITY (ls_order st')) 0); cbn [sum_quantities]; lia.
  - rewrite Hz in *. cbn [Z.eqb]. split; lia.
Qed.

Lemma place_order_nets_witness :
  exists ms : list trade,
    sum_matched ms = 60 /\
    sum_quantities (backlog (with_X [on_X 2 "B" 11 20] 110) "X") = 20.
Proof.
  assert (Hnn : Forall (fun o => 0 <= QUANTITY o)
                  [on_X 1 "B" 10 50; on_X 2 "B" 11 30]).
  { repeat constructor; discriminate. }
  destruct (place_order_nets
              (with_X [on_X 1 "B" 10 50; on_X 2 "B" 11 30] 0)
              (with_X [on_X 2 "B" 11 20] 110)
              (on_X 3 "S" 12 60) (on_X 1 "B" 10 50) [on_X 2 "B" 11 30]
              ["1,3,X,50,100.00,B,S,10.00,12.00"; "2,3,X,10,10.00,B,S,11.00,12.00"]
              eq_refl eq_refl Hnn)
    as (ms & _ & Hm & Hr).
  - discriminate.
  - vm_compute. reflexivity.
  - exists ms. split; [exact Hm|exact Hr].
Defined.

(** ** Symbols *)

Lemma loop_body_symbol (symbol : string) (st st' : loop_state) :
  Forall (fun o => SYMBOL o = symbol) (ls_pending st) ->
  loop_body st = Ok st' ->
  Forall (fun o => SYMBOL o = symbol) (ls_pending st').
Proof.
  intros HF Hb. apply loop_body_Ok in Hb as (head & rest & p & Hp & _ & ->).
  rewrite Hp in HF. apply Forall_cons in HF as [Hh Hr]. cbn.
  destruct (_ =? 0); [assumption|]. constructor; assumption.
Qed.

Lemma place_order_symbols (self self' : OrderManagementSystem) (order : Order)
    (lines : list string) :
  symbols_consistent self -> place_order self order = Ok (self', lines) ->
  symbols_consistent self'.
Proof.
  intros Hsym Hp symbol.
  destruct (place_order_cases _ _ _ _ Hp) as [[_ ->]|(head & rest & Hb & Hs)].
  - destruct (decide (SYMBOL order = symbol)) as [<-|Hne];
      rewrite ?backlog_set_eq, ?backlog_set_ne by assumption; [|apply Hsym].
    apply Forall_app. split; [apply Hsym|]. repeat constructor.
  - destruct (place_order_matches _ _ _ _ _ _ Hb Hs Hp)
      as (st' & ms & Hw & _ & _ & _ & ->).
    destruct (decide (SYMBOL order = symbol)) as [<-|Hne];
      rewrite ?backlog_set_eq, ?backlog_set_ne by assumption; [|apply Hsym].
    destruct (while_loop_order _ _ Hw) as [k Hk]. cbn in Hk.
    apply (while_loop_invariant
             (fun st => Forall (fun o => SYMBOL o = SYMBOL order) (ls_pending st)))
      in Hw as [HF _].
    2: { intros st0 st1 H0 _. now apply loop_body_symbol. }
    2: { cbn. rewrite <- Hb. apply Hsym. }
    destruct (_ =? 0); [assumption|].
    apply Forall_app. split; [assumption|]. repeat constructor. now rewrite Hk.
Qed.

Lemma symbols_consistent_init : symbols_consistent init.
Proof. intros symbol. rewrite backlog_init. constructor. Qed.

Lemma place_orders_symbols (orders : list Order) :
  forall (self self' : OrderManagementSystem) (lines : list string),
    symbols_consistent self -> place_orders self orders = Ok (self', lines) ->
    symbols_consistent self'.
Proof.
  induction orders as [|order orders IH]; intros self self' lines Hsym; cbn.
  - now intros [= <- <-].
  - destruct (place_order self order) as [[self1 lines1]|] eqn:Hp; [|discriminate].
    cbn. destruct (place_orders self1 orders) as [[self2 lines2]|] eqn:Hps;
      [|discriminate].
    cbn. intros [= <- <-]. eapply IH; [|eassumption].
    eapply place_order_symbols; eassumption.
Qed.

(** X3: every order rests under the key of its own symbol, after any
    sequence of calls from the initial state, and every call keeps it so.
    In such a state the trades that a call prints, which are the matches of
    the order against the backlog of its symbol, are against resting
    orders of the symbol of the incoming order: the symbol printed in a
    line, which is read from the closing order, is also the symbol of the
    order that the line closes. *)
Theorem resting_symbols :
  (forall orders self' lines,
      place_orders init orders = Ok (self', lines) ->
      forall symbol, Forall (fun o => SYMBOL o = symbol) (backlog self' symbol)) /\
  (forall self order self' lines,
      symbols_consistent self ->
      place_order self order = Ok (self', lines) ->
      symbols_consistent self' /\
      exists ms : list trade,
        lines = map trade_line ms /\
        matches_from (backlog self (SYMBOL order)) order ms /\
        Forall (fun m => resting m ∈ backlog self (SYMBOL order)
                         /\ SYMBOL (resting m) = SYMBOL order
                         /\ SYMBOL (incoming m) = SYMBOL order) ms).
Proof.
  split.
  - intros orders self' lines Hp.
    exact (place_orders_symbols orders init self' lines symbols_consistent_init Hp).
  - intros self order self' lines Hsym Hp.
    split; [now apply (place_order_symbols self self' order lines)|].
    destruct (place_order_ledger _ _ _ _ Hp) as (ms & -> & Hms & _).
    exists ms. split; [reflexivity|]. split; [exact Hms|].
    pose proof (matches_from_resting _ _ _ Hms) as Hr.
    pose proof (matches_from_incoming _ _ _ Hms) as Hi.
    apply Forall_forall. intros m Hm.
    rewrite Forall_forall in Hr, Hi.
    specialize (Hr m Hm). destruct (Hi m Hm) as [q Hq].
    split; [exact Hr|]. split; [|now rewrite Hq].
    specialize (Hsym (SYMBOL order)). rewrite Forall_forall in Hsym.
    now apply Hsym.
Qed.

Lemma resting_symbols_witness :
  Forall (fun o => SYMBOL o = "X") (backlog (with_X [on_X 2 "B" 11 20] 110) "X").
Proof.
  apply (proj1 resting_symbols
           [on_X 1 "B" 10 50; on_X 2 "B" 11 30; on_X 3 "S" 12 60]
           (with_X [on_X 2 "B" 11 20] 110)
           ["1,3,X,50,100.00,B,S,10.00,12.00"; "2,3,X,10,10.00,B,S,11.00,12.00"]).
  vm_compute. reflexivity.
Defined.

(** ** The keys of the store *)

Lemma place_order_queue (self self' : OrderManagementSystem) (order : Order)
    (lines : list string) :
  place_order self order = Ok (self', lines) ->
  exists pending, queue self' = <[SYMBOL order := pending]> (queue self).
Proof.
  intros Hp. apply place_order_Ok in Hp
    as [(_ & -> & _)|(h & r & st' & _ & _ & _ & _ & ->)]; cbn; eauto.
Qed.

Lemma place_orders_keys (orders : list Order) :
  forall (self self' : OrderManagementSystem) (lines : list string),
    place_orders self orders = Ok (self', lines) ->
    dom (queue self') = list_to_set (SYMBOL <$> orders) ∪ dom (queue self).
Proof.
  induction orders as [|order orders IH]; intros self self' lines; cbn.
  - intros [= <- <-]. now rewrite (left_id_L ∅ (∪)).
  - destruct (place_order self order) as [[self1 lines1]|] eqn:Hp; [|discriminate].
    cbn. destruct (place_orders self1 orders) as [[self2 lines2]|] eqn:Hps;
      [|discriminate].
    cbn. intros [= <- <-]. rewrite (IH _ _ _ Hps).
    destruct (place_order_queue _ _ _ _ Hp) as [pending ->].
    rewrite dom_insert_L, !(assoc_L (∪)).
    f_equal. apply (comm_L (∪)).
Qed.

(** X4: a call reads and writes the entry of its own symbol only, and it
    leaves an entry for that symbol even when the backlog ends empty; no
    entry is ever removed.  After a run from the initial state the keys of
    the store are exactly the symbols of the orders placed. *)
Theorem store_keys :
  (forall self order self' lines,
      place_order self order = Ok (self', lines) ->
      is_Some (queue self' !! SYMBOL order) /\
      forall symbol, symbol <> SYMBOL order ->
                     queue self' !! symbol = queue self !! symbol) /\
  (forall orders self' lines,
      place_orders init orders = Ok (self', lines) ->
      dom (queue self') = list_to_set (SYMBOL <$> orders)).
Proof.
  split.
  - intros self order self' lines Hp.
    destruct (place_order_queue _ _ _ _ Hp) as [pending ->]. split.
    + rewrite lookup_insert_eq. eauto.
    + intros symbol Hne. now rewrite lookup_insert_ne.
  - intros orders self' lines Hp. rewrite (place_orders_keys _ _ _ _ Hp).
    cbn. now rewrite dom_empty_L, (right_id_L ∅ (∪)).
Qed.

Lemma store_keys_witness :
  dom (queue (with_X [] 200)) = list_to_set (SYMBOL <$> [on_X 1 "B" 10 100; on_X 2 "S" 12 100]).
Proof.
  apply (proj2 store_keys [on_X 1 "B" 10 100; on_X 2 "S" 12 100]
           (with_X [] 200) ["1,2,X,100,200.00,B,S,10.00,12.00"]).
  vm_compute. reflexivity.
Defined.

(** ** Instruments do not interfere *)

Lemma loop_cond_same (st1 st2 : loop_state) :
  same_trades st1 st2 -> loop_cond st1 = loop_cond st2.
Proof. intros (Hp & Ho & _). unfold loop_cond. now rewrite Hp, Ho. Qed.

Lemma loop_body_same (st1 st2 : loop_state) :
  same_trades st1 st2 -> same_outcome (loop_body st1) (loop_body st2).
Proof.
  intros (Hp & Ho & Hl). unfold loop_body. rewrite Hp, Ho, Hl.
  destruct (ls_pending st2) as [|head rest]; [reflexivity|].
  destruct (int_mul_float _ _) as [p|e]; cbn; [|reflexivity].
  repeat split.
Qed.

(** The total plays no part in what the loop matches and prints. *)
Lemma while_loop_same (st1 : loop_state) :
  forall st2, same_trades st1 st2 ->
              same_outcome (while_loop st1) (while_loop st2).
Proof.
  apply (while_loop_ind
           (fun st r => forall st2, same_trades st st2 ->
                                    same_outcome r (while_loop st2))).
  - intros st Hc st2 Hs. rewrite (while_loop_eq st2), <- (loop_cond_same _ _ Hs), Hc.
    exact Hs.
  - intros st e Hc Hb st2 Hs.
    rewrite (while_loop_eq st2), <- (loop_cond_same _ _ Hs), Hc.
    pose proof (loop_body_same _ _ Hs) as Hsb. rewrite Hb in Hsb.
    destruct (loop_body st2); [contradiction|exact Hsb].
  - intros st st' r Hc Hb IH st2 Hs.
    rewrite (while_loop_eq st2), <- (loop_cond_same _ _ Hs), Hc.
    pose proof (loop_body_same _ _ Hs) as Hsb. rewrite Hb in Hsb.
    destruct (loop_body st2) as [st2'|]; [|contradiction]. cbn. now apply IH.
Qed.

Lemma place_order_other (self self' : OrderManagementSystem) (order : Order)
    (lines : list string) (symbol : string) :
  place_order self order = Ok (self', lines) -> symbol <> SYMBOL order ->
  backlog self' symbol = backlog self symbol.
Proof.
  intros Hp Hne. destruct (place_order_queue _ _ _ _ Hp) as [pending Hq].
  unfold backlog. now rewrite Hq, lookup_insert_ne.
Qed.

(** What a call prints and leaves in the backlog of its symbol depends on
    that backlog only. *)
Lemma place_order_same_backlog (self1 self2 self1' : OrderManagementSystem)
    (order : Order) (lines : list string) :
  backlog self1 (SYMBOL order) = backlog self2 (SYMBOL order) ->
  place_order self1 order = Ok (self1', lines) ->
  exists self2',
    place_order self2 order = Ok (self2', lines) /\
    backlog self2' (SYMBOL order) = backlog self1' (SYMBOL order).
Proof.
  intros Hb. unfold place_order. cbn zeta. rewrite <- Hb.
  destruct (backlog self1 (SYMBOL order)) as [|head rest].
  - intros [= <- <-]. eexists. split; [reflexivity|]. now rewrite !backlog_set_eq.
  - destruct (same_side order head).
    + intros [= <- <-]. eexists. split; [reflexivity|]. now rewrite !backlog_set_eq.
    + pose proof (while_loop_same
                    {| ls_pending := head :: rest; ls_order := order;
                       ls_total := total self1; ls_printed := [] |}
                    {| ls_pending := head :: rest; ls_order := order;
                       ls_total := total self2; ls_printed := [] |}
                    (conj eq_refl (conj eq_refl eq_refl))) as Hsame.
      destruct (while_loop _) as [st1|e1]; cbn; [|discriminate].
      intros [= <- <-].
      destruct (while_loop _) as [st2|e2]; cbn in Hsame |- *; [|contradiction].
      destruct Hsame as (Hp & Ho & Hl).
      eexists. split; [now rewrite Hl|].
      now rewrite !backlog_set_eq, Hp, Ho.
Qed.

Section OneInstrument.

Variable symbol : string.

Lemma place_orders_on_symbol (orders : list Order) :
  forall (self1 self2 self1' : OrderManagementSystem) (lines1 : list string),
    backlog self1 symbol = backlog self2 symbol ->
    place_orders self1 orders = Ok (self1', lines1) ->
    exists self2' lines2,
      place_orders self2 (on_symbol symbol orders) = Ok (self2', lines2) /\
      backlog self2' symbol = backlog self1' symbol /\
      lines2 `sublist_of` lines1.
Proof.
  induction orders as [|order orders IH]; intros self1 self2 self1' lines1 Hb H;
    cbn in H.
  - injection H as <- <-. exists self2, [].
    repeat split; [now symmetry|constructor].
  - destruct (place_order self1 order) as [[selfa la]|] eqn:Hp; [|discriminate].
    cbn in H. destruct (place_orders selfa orders) as [[selfb lb]|] eqn:Hps;
      [|discriminate].
    cbn in H. injection H as <- <-. unfold on_symbol.
    destruct (decide (SYMBOL order = symbol)) as [Heq|Hne].
    + rewrite filter_cons_True by assumption. rewrite <- Heq in Hb.
      destruct (place_order_same_backlog _ _ _ _ _ Hb Hp) as (self2a & Hp2 & Hb2).
      rewrite Heq in Hb2.
      destruct (IH selfa self2a selfb lb (eq_sym Hb2) Hps)
        as (self2b & l2 & Hps2 & Hb3 & Hsub).
      exists self2b, (la ++ l2). cbn. rewrite Hp2. cbn.
      unfold on_symbol in Hps2. rewrite Hps2. cbn.
      repeat split; [assumption|]. now apply sublist_app.
    + rewrite filter_cons_False by assumption.
      assert (Hb' : backlog selfa symbol = backlog self2 symbol).
      { rewrite <- Hb. eapply place_order_other; [eassumption|congruence]. }
      destruct (IH selfa self2 selfb lb Hb' Hps) as (self2b & l2 & Hps2 & Hb3 & Hsub).
      exists self2b, l2. repeat split; try assumption.
      now apply sublist_inserts_l.
Qed.

End OneInstrument.

(** X5: instruments do not interfere.  The backlog that a run leaves for a
    symbol is the one left by the run of the orders of that symbol alone,
    which completes when the whole run does and prints, in the same order,
    lines among those of the whole run. *)
Theorem instruments_independent (symbol : string) (orders : list Order)
    (self' : OrderManagementSystem) (lines : list string) :
  place_orders init orders = Ok (self', lines) ->
  exists self'' lines',
    place_orders init (on_symbol symbol orders) = Ok (self'', lines') /\
    backlog self'' symbol = backlog self' symbol /\
    lines' `sublist_of` lines.
Proof. now apply place_orders_on_symbol. Qed.

Lemma instruments_independent_witness :
  exists self'' lines',
    place_orders init
      (on_symbol "X" [on_X 1 "B" 10 50;
                      {| TIME := 2; SYMBOL := "Y"; SIDE := "S"; PRICE := 5;
                         QUANTITY := 7 |};
                      on_X 3 "S" 12 60])
    = Ok (self'', lines') /\
    backlog self'' "X" = [on_X 3 "S" 12 10].
Proof.
  destruct (instruments_independent "X"
              [on_X 1 "B" 10 50;
               {| TIME := 2; SYMBOL := "Y"; SIDE := "S"; PRICE := 5; QUANTITY := 7 |};
               on_X 3 "S" 12 60]
              (set_backlog (with_X [on_X 3 "S" 12 10] 0) "Y"
                 [{| TIME := 2; SYMBOL := "Y"; SIDE := "S"; PRICE := 5; QUANTITY := 7 |}]
                 100)
              ["1,3,X,50,100.00,B,S,10.00,12.00"])
    as (self'' & lines' & Hp & Hb & _).
  - vm_compute. reflexivity.
  - exists self'', lines'. split; [exact Hp|]. rewrite Hb. reflexivity.
Defined.

(** ** Times *)

Lemma chronological_snoc (pending : list Order) (order : Order) :
  chronological pending -> Forall (fun o => TIME o <= TIME order) pending ->
  chronological (pending ++ [order]).
Proof.
  unfold chronological. induction pending as [|o pending IH]; cbn; intros Hs Hle.
  - repeat constructor.
  - apply StronglySorted_inv in Hs as [Hs Ho]. apply Forall_cons in Hle as [Hle1 Hle].
    constructor; [now apply IH|].
    apply Forall_app. split; [assumption|]. now repeat constructor.
Qed.

Lemma loop_body_times (t : Z) (st st' : loop_state) :
  loop_body st = Ok st' ->
  chronological (ls_pending st) /\ Forall (fun o => TIME o <= t) (ls_pending st) ->
  (chronological (ls_pending st') /\ Forall (fun o => TIME o <= t) (ls_pending st')) /\
  TIME (ls_order st') = TIME (ls_order st).
Proof.
  intros Hb [Hs Hle]. apply loop_body_Ok in Hb as (head & rest & p & Hp & _ & ->).
  cbn. rewrite Hp in Hs, Hle. unfold chronological in *.
  apply StronglySorted_inv in Hs as [Hs Hh]. apply Forall_cons in Hle as [Hle1 Hle].
  split; [|reflexivity].
  destruct (_ =? 0); [now split|].
  split; constructor; assumption.
Qed.

Lemma while_loop_times (t : Z) (st st' : loop_state) :
  while_loop st = Ok st' ->
  chronological (ls_pending st) /\ Forall (fun o => TIME o <= t) (ls_pending st) ->
  (chronological (ls_pending st') /\ Forall (fun o => TIME o <= t) (ls_pending st')) /\
  TIME (ls_order st') = TIME (ls_order st).
Proof.
  intros Hw HI.
  destruct (while_loop_invariant
              (fun s => (chronological (ls_pending s) /\
                         Forall (fun o => TIME o <= t) (ls_pending s)) /\
                        TIME (ls_order s) = TIME (ls_order st))) with (st := st) (st' := st')
    as [H _]; auto.
  intros s s' [HIs Ht] _ Hb.
  destruct (loop_body_times t _ _ Hb HIs) as [? ?]. split; [assumption|congruence].
Qed.

Lemma Forall_time_le (t t' : Z) (pending : list Order) :
  t <= t' -> Forall (fun o => TIME o <= t) pending ->
  Forall (fun o => TIME o <= t') pending.
Proof.
  intros Hle H. eapply Forall_impl; [exact H|]. intros o Ho. cbn in Ho. lia.
Qed.

(** A call for an order that is not earlier than the resting ones keeps the
    backlogs in the order of their times, and opens no trade after it is
    closed. *)
Lemma place_order_times (self self' : OrderManagementSystem) (order : Order)
    (lines : list string) (t : Z) :
  in_time_order self t -> t <= TIME order ->
  place_order self order = Ok (self', lines) ->
  in_time_order self' (TIME order) /\
  exists ms, lines = map trade_line ms /\
             Forall (fun m => TIME (resting m) <= TIME (incoming m)) ms.
Proof.
  intros HI Ht Hp.
  assert (Hother : forall symbol, symbol <> SYMBOL order ->
            chronological (backlog self' symbol) /\
            Forall (fun o => TIME o <= TIME order) (backlog self' symbol)).
  { intros symbol Hne. rewrite (place_order_other _ _ _ _ _ Hp Hne).
    destruct (HI symbol) as [Hs Hle]. split; [assumption|].
    now apply (Forall_time_le t). }
  destruct (HI (SYMBOL order)) as [Hs Hle].
  destruct (place_order_cases _ _ _ _ Hp) as [(-> & ->)|(head & rest & Hb & Hside)].
  - split; [|exists []; split; [reflexivity|constructor]].
    intros symbol. destruct (decide (symbol = SYMBOL order)) as [->|Hne];
      [|now apply Hother].
    rewrite backlog_set_eq. split.
    + apply chronological_snoc; [assumption|]. now apply (Forall_time_le t).
    + apply Forall_app. split; [now apply (Forall_time_le t)|].
      repeat constructor. lia.
  - destruct (place_order_matches _ _ _ _ _ _ Hb Hside Hp)
      as (st' & ms & Hw & Hl & _ & -> & Hself).
    rewrite Hb in Hs, Hle.
    destruct (while_loop_times t _ _ Hw (conj Hs Hle)) as [[Hs' Hle'] Ht'].
    cbn in Ht'. split.
    + intros symbol. destruct (decide (symbol = SYMBOL order)) as [->|Hne];
        [|now apply Hother].
      rewrite Hself, backlog_set_eq.
      destruct (_ =? 0).
      * split; [assumption|]. now apply (Forall_time_le t).
      * split.
        -- apply chronological_snoc; [assumption|]. rewrite Ht'.
           now apply (Forall_time_le t).
        -- apply Forall_app. split; [now apply (Forall_time_le t)|].
           repeat constructor. lia.
    + exists ms. split; [reflexivity|].
      destruct Hl as (_ & _ & Hm & Hr & _). cbn in Hm, Hr.
      apply Forall_forall. intros m Hin.
      apply (proj1 (Forall_forall _ _) Hm) in Hin as Hm1.
      apply (proj1 (Forall_forall _ _) Hr) in Hin as Hr1.
      destruct Hm1 as [[q ->] _]. destruct Hr1 as (o & q' & Ho & ->). cbn.
      apply (proj1 (Forall_forall _ _) Hle) in Ho. lia.
Qed.

Lemma place_orders_times (orders : list Order) :
  forall (self self' : OrderManagementSystem) (lines : list string) (t : Z),
    in_time_order self t -> Forall (fun o => t <= TIME o) orders ->
    chronological orders ->
    place_orders self orders = Ok (self', lines) ->
    (forall symbol, chronological (backlog self' symbol)) /\
    exists ms, lines = map trade_line ms /\
               Forall (fun m => TIME (resting m) <= TIME (incoming m)) ms.
Proof.
  induction orders as [|order orders IH]; intros self self' lines t HI Hge Hs H;
    cbn in H.
  - injection H as <- <-. split; [intros symbol; apply HI|].
    exists []. split; [reflexivity|constructor].
  - destruct (place_order self order) as [[selfa la]|] eqn:Hp; [|discriminate].
    cbn in H. destruct (place_orders selfa orders) as [[selfb lb]|] eqn:Hps;
      [|discriminate].
    cbn in H. injection H as <- <-.
    apply Forall_cons in Hge as [Hge1 Hge].
    apply StronglySorted_inv in Hs as [Hs Hfirst].
    destruct (place_order_times _ _ _ _ t HI Hge1 Hp) as (HIa & msa & -> & Hma).
    destruct (IH selfa selfb lb (TIME order) HIa Hfirst Hs Hps)
      as (Hch & msb & -> & Hmb).
    split; [assumption|]. exists (msa ++ msb). split; [now rewrite map_app|].
    apply Forall_app. now split.
Qed.

(** X6: on orders given in the order of their times, every printed trade
    is opened no later than it is closed, and every backlog stays in the
    order of its times. *)
Theorem open_before_close (orders : list Order) (self' : OrderManagementSystem)
    (lines : list string) :
  chronological orders ->
  place_orders init orders = Ok (self', lines) ->
  (forall symbol, chronological (backlog self' symbol)) /\
  exists ms, lines = map trade_line ms /\
             Forall (fun m => TIME (resting m) <= TIME (incoming m)) ms.
Proof.
  intros Hs Hp.
  destruct orders as [|order orders].
  - injection Hp as <- <-. split.
    + intros symbol. rewrite backlog_init. constructor.
    + exists []. split; [reflexivity|constructor].
  - apply (place_orders_times (order :: orders) init self' lines (TIME order));
      try assumption.
    + intros symbol. rewrite backlog_init. split; constructor.
    + apply StronglySorted_inv in Hs as [_ Hfirst].
      constructor; [lia|assumption].
Qed.

Lemma open_before_close_witness :
  exists ms,
    ["1,3,X,50,100.00,B,S,10.00,12.00"] = map trade_line ms /\
    Forall (fun m => TIME (resting m) <= TIME (incoming m)) ms.
Proof.
  destruct (open_before_close
              [on_X 1 "B" 10 50; on_X 3 "S" 12 60]
              (with_X [on_X 3 "S" 12 10] 100)
              ["1,3,X,50,100.00,B,S,10.00,12.00"]) as [_ Hms].
  - repeat constructor; cbn; lia.
  - vm_compute. reflexivity.
  - exact Hms.
Defined.

(** ** [run] and [main] as a whole *)

Lemma nonneg_backlogs_init : nonneg_backlogs init.
Proof. intros symbol. rewrite backlog_init. constructor. Qed.

Lemma place_orders_Raise (orders : list Order) :
  forall (self : OrderManagementSystem) (e : exn),
    place_orders self orders = Raise e -> e = OverflowError.
Proof.
  induction orders as [|order orders IH]; intros self e H; cbn in H;
    [discriminate|].
  destruct (place_order_outcome self order) as [(selfa & la & Hp)|Hp];
    rewrite Hp in H; cbn in H; [|congruence].
  destruct (place_orders selfa orders) as [[selfb lb]|e'] eqn:Hps;
    cbn in H; [discriminate|].
  injection H as <-. now apply (IH selfa).
Qed.

Lemma place_orders_returns (orders : list Order) :
  forall self : OrderManagementSystem,
    nonneg_backlogs self ->
    Forall (fun o => 0 <= QUANTITY o < 2 ^ 1023) orders ->
    exists self' lines, place_orders self orders = Ok (self', lines).
Proof.
  induction orders as [|order orders IH]; intros self Hn HF; cbn.
  - eauto.
  - apply Forall_cons in HF as [Hq HF].
    destruct (place_order_returns self order Hq (Hn (SYMBOL order)))
      as (selfa & la & Hp).
    rewrite Hp. cbn.
    destruct (place_order_shrinks _ _ _ _ Hn (proj1 Hq) Hp) as [Hna _].
    destruct (IH selfa Hna HF) as (selfb & lb & Hps).
    rewrite Hps. cbn. eauto.
Qed.

(** X7: [main] never fails with an [IndexError]: the only exception of a
    run is the [OverflowError] of a quantity too large for a float.  On
    quantities that are not negative and below [2^1023] the run completes,
    and prints the header, the closed trades of the orders in turn, and
    the total with two decimals. *)
Theorem main_returns :
  (forall orders e, main orders = Raise e -> e = OverflowError) /\
  (forall orders,
      Forall (fun o => 0 <= QUANTITY o < 2 ^ 1023) orders ->
      exists self' lines,
        place_orders init orders = Ok (self', lines) /\
        run init orders = Ok (total self', header :: lines) /\
        main orders = Ok (header :: lines ++ [format_2f (total self')])).
Proof.
  split.
  - intros orders e. unfold main, run.
    destruct (place_orders init orders) as [[self' lines]|e'] eqn:Hp; cbn;
      [discriminate|].
    intros [= <-]. now apply (place_orders_Raise orders init).
  - intros orders HF.
    destruct (place_orders_returns orders init nonneg_backlogs_init HF)
      as (self' & lines & Hp).
    exists self', lines. unfold main, run. rewrite Hp. cbn. auto.
Qed.

Lemma main_returns_witness :
  exists self' lines,
    place_orders init [on_X 1 "B" 10 50; on_X 3 "S" 12 60] = Ok (self', lines) /\
    run init [on_X 1 "B" 10 50; on_X 3 "S" 12 60]
      = Ok (total self', header :: lines) /\
    main [on_X 1 "B" 10 50; on_X 3 "S" 12 60]
      = Ok (header :: lines ++ [format_2f (total self')]).
Proof.
  apply (proj2 main_returns [on_X 1 "B" 10 50; on_X 3 "S" 12 60]).
  repeat constructor; cbn; lia.
Defined.

(** ** The number of printed trades *)

Lemma resting_count_delete (self : OrderManagementSystem) (symbol : string) :
  resting_count self
  = (length (backlog self symbol)
     + map_fold (fun _ pending n => (length pending + n)%nat) 0%nat
         (delete symbol (queue self)))%nat.
Proof.
  unfold resting_count, backlog.
  destruct (queue self !! symbol) as [pending|] eqn:Hq; cbn.
  - apply (map_fold_delete_L (fun _ pending n => (length pending + n)%nat));
      [|assumption].
    intros. lia.
  - now rewrite delete_id.
Qed.

Lemma resting_count_set (self : OrderManagementSystem) (symbol : string)
    (pending : list Order) (t : float) :
  (resting_count (set_backlog self symbol pending t)
   + length (backlog self symbol)
   = resting_count self + length pending)%nat.
Proof.
  rewrite (resting_count_delete self symbol).
  unfold resting_count, set_backlog. cbn.
  rewrite <- insert_delete_eq.
  rewrite (map_fold_insert_L (fun _ pending n => (length pending + n)%nat));
    [lia| |apply lookup_delete_eq].
  intros. lia.
Qed.

(** A pass prints one line, and pops the head of the deque unless it uses
    up the incoming order. *)
Lemma loop_body_count (st st' : loop_state) :
  loop_cond st = true -> loop_body st = Ok st' ->
  (length (ls_printed st') + length (ls_pending st')
   + (if (QUANTITY (ls_order st') =? 0)%Z then 0 else 1)
   <= length (ls_printed st) + length (ls_pending st) + 1)%nat.
Proof.
  intros _ Hb. apply loop_body_Ok in Hb as (head & rest & p & Hp & _ & ->).
  cbn. rewrite Hp, length_app. cbn.
  destruct (Z.eqb_spec (QUANTITY head - Z.min (QUANTITY (ls_order st)) (QUANTITY head)) 0)
    as [Hh|Hh];
    destruct (Z.eqb_spec (QUANTITY (ls_order st) - Z.min (QUANTITY (ls_order st)) (QUANTITY head)) 0)
    as [Ho|Ho]; cbn; lia.
Qed.

Lemma while_loop_count (st st' : loop_state) :
  while_loop st = Ok st' ->
  (length (ls_printed st') + length (ls_pending st')
   + (if (QUANTITY (ls_order st') =? 0)%Z then 0 else 1)
   <= length (ls_printed st) + length (ls_pending st)
      + (if (QUANTITY (ls_order st) =? 0)%Z then 0 else 1))%nat.
Proof.
  revert st'.
  apply (while_loop_ind
           (fun st r => forall st', r = Ok st' ->
              (length (ls_printed st') + length (ls_pending st')
               + (if (QUANTITY (ls_order st') =? 0)%Z then 0 else 1)
               <= length (ls_printed st) + length (ls_pending st)
                  + (if (QUANTITY (ls_order st) =? 0)%Z then 0 else 1))%nat)).
  - intros s _ st' [= <-]. lia.
  - intros s e _ _ st' [=].
  - intros s s1 r Hc Hb IH st' Hr. specialize (IH st' Hr).
    pose proof (loop_body_count _ _ Hc Hb) as H1.
    unfold loop_cond in Hc. destruct (ls_pending s); [discriminate|].
    destruct (QUANTITY (ls_order s) =? 0)%Z; [discriminate|]. lia.
Qed.

(** A call prints at most one line more than the orders it takes off the
    backlog. *)
Lemma place_order_count (self self' : OrderManagementSystem) (order : Order)
    (lines : list string) :
  place_order self order = Ok (self', lines) ->
  (length lines + resting_count self' <= resting_count self + 1)%nat.
Proof.
  intros Hp. apply place_order_Ok in Hp
    as [(-> & -> & _)|(head & rest & st' & Hb & Hs & Hw & -> & ->)].
  - pose proof (resting_count_set self (SYMBOL order)
                  (backlog self (SYMBOL order) ++ [order]) (total self)) as H.
    rewrite length_app in H. cbn in *. lia.
  - pose proof (resting_count_set self (SYMBOL order)
                  (if QUANTITY (ls_order st') =? 0 then ls_pending st'
                   else ls_pending st' ++ [ls_order st']) (ls_total st')) as H.
    apply while_loop_count in Hw. cbn in Hw.
    destruct (QUANTITY (ls_order st') =? 0); rewrite ?length_app in H; cbn in H;
      destruct (QUANTITY order =? 0); lia.
Qed.

Lemma place_orders_count (orders : list Order) :
  forall (self self' : OrderManagementSystem) (lines : list string),
    place_orders self orders = Ok (self', lines) ->
    (length lines + resting_count self' <= resting_count self + length orders)%nat.
Proof.
  induction orders as [|order orders IH]; intros self self' lines H; cbn in H.
  - injection H as <- <-. cbn. lia.
  - destruct (place_order self order) as [[selfa la]|] eqn:Hp; [|discriminate].
    cbn in H. destruct (place_orders selfa orders) as [[selfb lb]|] eqn:Hps;
      [|discriminate].
    cbn in H. injection H as <- <-.
    apply place_order_count in Hp. apply IH in Hps.
    rewrite length_app. cbn. lia.
Qed.

(** X8: a run closes at most as many trades as it has orders.  The printed
    trades and the orders left resting in the backlogs are together no more
    than the orders placed, so [main] prints at most two lines more than
    the input has rows: the header and the total. *)
Theorem printed_trades_bounded :
  (forall orders self' lines,
      place_orders init orders = Ok (self', lines) ->
      (length lines + resting_count self' <= length orders)%nat) /\
  (forall orders out,
      main orders = Ok out -> (length out <= length orders + 2)%nat).
Proof.
  split.
  - intros orders self' lines Hp. apply place_orders_count in Hp.
    unfold resting_count in Hp at 2. cbn in Hp. rewrite map_fold_empty in Hp. lia.
  - intros orders out. unfold main, run.
    destruct (place_orders init orders) as [[self' lines]|] eqn:Hp; [|discriminate].
    cbn. intros [= <-]. apply place_orders_count in Hp.
    unfold resting_count in Hp at 2. cbn in Hp. rewrite map_fold_empty in Hp.
    cbn. rewrite length_app. cbn. lia.
Qed.

Lemma printed_trades_bounded_witness :
  (length ["1,3,X,50,100.00,B,S,10.00,12.00"]
   + resting_count (with_X [on_X 3 "S" 12 10] 100) <= 2)%nat.
Proof.
  apply (proj1 printed_trades_bounded
           [on_X 1 "B" 10 50; on_X 3 "S" 12 60]
           (with_X [on_X 3 "S" 12 10] 100)
           ["1,3,X,50,100.00,B,S,10.00,12.00"]).
  vm_compute. reflexivity.
Defined.

(** ** The net position *)

Lemma position_app (l1 l2 : list Order) :
  position (l1 ++ l2) = position l1 + position l2.
Proof. induction l1 as [|o l1 IH]; cbn [app position]; lia. Qed.

Lemma position_one_side (side : string) (pending : list Order) :
  Forall (fun o => SIDE o = side) pending ->
  position pending
  = if String.eqb side "B" then sum_quantities pending
    else - sum_quantities pending.
Proof.
  induction pending as [|o pending IH]; intros HF.
  - cbn. now destruct (String.eqb side "B").
  - apply Forall_cons in HF as [Ho HF]. cbn [position sum_quantities].
    rewrite (IH HF). unfold signed. rewrite Ho.
    destruct (String.eqb side "B"); lia.
Qed.

(** A call adds the incoming order to the net position of its symbol. *)
Lemma place_order_position (self self' : OrderManagementSystem) (order : Order)
    (lines : list string) :
  one_side (backlog self (SYMBOL order)) ->
  Forall buy_or_sell (backlog self (SYMBOL order)) ->
  buy_or_sell order ->
  place_order self order = Ok (self', lines) ->
  position (backlog self' (SYMBOL order))
  = position (backlog self (SYMBOL order)) + signed order /\
  Forall buy_or_sell (backlog self' (SYMBOL order)).
Proof.
  intros [side Hside] Hbs Ho Hp.
  destruct (place_order_cases _ _ _ _ Hp) as [(-> & ->)|(head & rest & Hb & Hs)].
  - rewrite backlog_set_eq, position_app. cbn. split; [lia|].
    apply Forall_app. split; [assumption|]. constructor; [assumption|constructor].
  - destruct (place_order_matches _ _ _ _ _ _ Hb Hs Hp)
      as (st' & ms & Hw & Hl & _ & _ & ->).
    rewrite backlog_set_eq. rewrite Hb in Hside, Hbs |- *.
    destruct Hl as (_ & _ & _ & _ & _ & Hq & Hsum). cbn in Hq, Hsum.
    destruct (while_loop_order _ _ Hw) as [q Horder]. cbn in Horder.
    apply (while_loop_invariant
             (fun st => Forall (fun o => SIDE o = side) (ls_pending st)))
      in Hw as [Hside' _];
      [| intros; eapply loop_body_one_side; eassumption | exact Hside].
    assert (Hhead : SIDE head = side) by now apply Forall_cons in Hside as [? _].
    assert (Hbsh : buy_or_sell head) by now apply Forall_cons in Hbs as [? _].
    assert (Hpos : position (if QUANTITY (ls_order st') =? 0 then ls_pending st'
                             else ls_pending st' ++ [ls_order st'])
                   = position (ls_pending st') + signed (ls_order st')).
    { destruct (Z.eqb_spec (QUANTITY (ls_order st')) 0) as [Hz|Hz].
      - unfold signed. rewrite Hz. destruct (String.eqb _ _); lia.
      - rewrite position_app. cbn. lia. }
    split.
    + rewrite Hpos, (position_one_side side _ Hside'),
        (position_one_side side _ Hside), Hsum.
      unfold signed. rewrite Hq, Horder. cbn [SIDE sub_QUANTITY].
      unfold same_side in Hs. apply String.eqb_neq in Hs. rewrite Hhead in Hs.
      destruct Ho as [Ho|Ho], Hbsh as [Hh|Hh]; rewrite Hhead in Hh;
        rewrite Ho in *; rewrite Hh in *; cbn; try congruence; lia.
    + assert (Hbs' : Forall buy_or_sell (ls_pending st')).
      { eapply Forall_impl; [exact Hside'|]. intros o Hoside. cbn in Hoside.
        unfold buy_or_sell in *. now rewrite Hoside, <- Hhead. }
      destruct (_ =? 0); [assumption|].
      apply Forall_app. split; [assumption|]. constructor; [|constructor].
      rewrite Horder. exact Ho.
Qed.

Lemma place_orders_position (orders : list Order) :
  forall (self self' : OrderManagementSystem) (lines : list string),
    side_pure self ->
    (forall symbol, Forall buy_or_sell (backlog self symbol)) ->
    Forall buy_or_sell orders ->
    place_orders self orders = Ok (self', lines) ->
    forall symbol,
      position (backlog self' symbol)
      = position (backlog self symbol) + position (on_symbol symbol orders) /\
      Forall buy_or_sell (backlog self' symbol).
Proof.
  induction orders as [|order orders IH]; intros self self' lines Hpure Hbs HF H;
    cbn in H.
  - injection H as <- <-. intros symbol. cbn. split; [lia|apply Hbs].
  - destruct (place_order self order) as [[selfa la]|] eqn:Hp; [|discriminate].
    cbn in H. destruct (place_orders selfa orders) as [[selfb lb]|] eqn:Hps;
      [|discriminate].
    cbn in H. injection H as <- <-.
    apply Forall_cons in HF as [Ho HF].
    destruct (place_order_position _ _ _ _ (Hpure (SYMBOL order))
                (Hbs (SYMBOL order)) Ho Hp) as [Hpos Hbsa].
    assert (Hbs' : forall symbol, Forall buy_or_sell (backlog selfa symbol)).
    { intros symbol. destruct (decide (symbol = SYMBOL order)) as [->|Hne];
        [assumption|].
      rewrite (place_order_other _ _ _ _ _ Hp Hne). apply Hbs. }
    intros symbol.
    destruct (IH selfa selfb lb (place_order_side_pure _ _ _ _ Hpure Hp) Hbs' HF Hps
                symbol) as [-> Hbsb].
    split; [|assumption]. unfold on_symbol.
    destruct (decide (SYMBOL order = symbol)) as [Heq|Hne].
    + rewrite filter_cons_True by assumption. rewrite <- Heq, Hpos. cbn. lia.
    + rewrite filter_cons_False by assumption.
      rewrite (place_order_other _ _ _ _ symbol Hp); [reflexivity|congruence].
Qed.

(** X9: the backlog of a symbol holds the net position in it.  On buy and
    sell orders placed from the initial state, the quantities left resting
    under a symbol, counted long for buys and short for sells, add up to
    the quantities of all the orders of that symbol counted the same way. *)
Theorem net_position (orders : list Order) (self' : OrderManagementSystem)
    (lines : list string) (symbol : string) :
  Forall buy_or_sell orders ->
  place_orders init orders = Ok (self', lines) ->
  position (backlog self' symbol) = position (on_symbol symbol orders).
Proof.
  intros HF Hp.
  destruct (place_orders_position orders init self' lines side_pure_init
              (fun s => Forall_nil_2 _) HF Hp symbol) as [-> _].
  rewrite backlog_init. reflexivity.
Qed.

Lemma net_position_witness :
  position (backlog (with_X [on_X 3 "S" 12 10] 100) "X")
  = position (on_symbol "X" [on_X 1 "B" 10 50; on_X 3 "S" 12 60]).
Proof.
  apply (net_position [on_X 1 "B" 10 50; on_X 3 "S" 12 60]
           (with_X [on_X 3 "S" 12 10] 100)
           ["1,3,X,50,100.00,B,S,10.00,12.00"] "X").
  - constructor; [now left|]. constructor; [now right|]. constructor.
  - vm_compute. reflexivity.
Defined.

(** ** The matches of a run *)

Lemma fold_left_post (side : string) (ms : list trade) :
  Forall (fun m => SIDE (incoming m) = side) ms ->
  forall t, fold_left (post side) ms t
            = fold_left (fun t m => post (SIDE (incoming m)) t m) ms t.
Proof.
  induction ms as [|m ms IH]; intros HF t; [reflexivity|].
  apply Forall_cons in HF as [Hm HF]. cbn. rewrite Hm. now apply IH.
Qed.

(** A run that completes has a ledger: its lines are those of the matches
    of its calls, and its total takes them in turn. *)
Lemma place_orders_ledger (orders : list Order) :
  forall (self self' : OrderManagementSystem) (lines : list string),
    place_orders self orders = Ok (self', lines) ->
    exists mss,
      ledger_of self orders mss /\
      lines = map trade_line (concat mss) /\
      total self'
      = fold_left (fun t m => post (SIDE (incoming m)) t m) (concat mss)
          (total self).
Proof.
  induction orders as [|order orders IH]; intros self self' lines H; cbn in H.
  - injection H as <- <-. exists []. repeat split.
  - destruct (place_order self order) as [[selfa la]|] eqn:Hp; [|discriminate].
    cbn in H. destruct (place_orders selfa orders) as [[selfb lb]|] eqn:Hps;
      [|discriminate].
    cbn in H. injection H as <- <-.
    destruct (place_order_ledger _ _ _ _ Hp) as (ms & -> & Hms & Hta).
    destruct (IH _ _ _ Hps) as (mss & Hl & -> & Htb).
    exists (ms :: mss). split; [|split].
    + simpl. split; [exact Hms|]. exists selfa. now split.
    + simpl. now rewrite map_app.
    + simpl. rewrite fold_left_app, Htb, Hta. f_equal. apply fold_left_post.
      eapply Forall_impl; [exact (matches_from_incoming _ _ _ Hms)|].
      intros m [q ->]. reflexivity.
Qed.

(** The ledger of a run is determined by the orders. *)
Lemma ledger_of_unique (orders : list Order) :
  forall (self : OrderManagementSystem) (mss mss' : list (list trade)),
    ledger_of self orders mss -> ledger_of self orders mss' -> mss' = mss.
Proof.
  induction orders as [|order orders IH]; intros self [|ms mss] [|ms' mss'] H H';
    try contradiction; [reflexivity|].
  simpl in H, H'.
  destruct H as (Hms & self1 & Hp & H). destruct H' as (Hms' & self1' & Hp' & H').
  rewrite Hp in Hp'. injection Hp' as <- Hlines.
  assert (Hlen : length ms' = length ms).
  { rewrite <- (length_map trade_line ms'), <- Hlines. apply length_map. }
  rewrite (matches_from_unique ms _ _ ms' Hms Hms' Hlen).
  f_equal. now apply (IH self1).
Qed.

(** ** What [main] prints *)

(** X10: what [main] prints is the header, one line for each match of the
    run, call by call, and the total of those matches.  The matches of a
    call are those of its order against the backlog of its symbol as the
    earlier calls left it, and the run has no other ledger.  The total
    starts from zero and takes the matches in the order of their lines: the
    profit or loss of a match, which is its quantity times the incoming
    price less the resting price, is subtracted when the incoming order is
    a buy and added otherwise.  It is printed with two decimals, or as
    [nan], [inf] or [-inf] when it is not finite. *)
Theorem main_prints (orders : list Order) (out : list string) :
  main orders = Ok out ->
  exists mss,
    ledger_of init orders mss /\
    (forall mss', ledger_of init orders mss' -> mss' = mss) /\
    let t := fold_left (fun t m => post (SIDE (incoming m)) t m) (concat mss)
               PrimFloat.zero in
    out = header :: map trade_line (concat mss) ++ [format_2f t] /\
    (two_fraction_digits (format_2f t) = true \/
     format_2f t = "nan" \/ format_2f t = "inf" \/ format_2f t = "-inf").
Proof.
  unfold main, run.
  destruct (place_orders init orders) as [[self' lines]|] eqn:Hp; [|discriminate].
  cbn. intros [= <-].
  destruct (place_orders_ledger _ _ _ _ Hp) as (mss & Hl & -> & Ht).
  exists mss. split; [exact Hl|]. split.
  { intros mss' Hl'. now apply (ledger_of_unique orders init). }
  cbn zeta. change (total init) with PrimFloat.zero in Ht. rewrite <- Ht.
  split; [reflexivity|].
  destruct (float_finite (total self')) eqn:Hf.
  - left. now apply Decimal.format_2f_finite.
  - right. now apply Decimal.format_2f_not_finite.
Qed.

Lemma main_prints_witness :
  exists mss,
    ledger_of init [on_X 1 "B" 10 50; on_X 3 "S" 12 60] mss /\
    [header; "1,3,X,50,100.00,B,S,10.00,12.00"; "100.00"]
    = header :: map trade_line (concat mss)
        ++ [format_2f (fold_left (fun t m => post (SIDE (incoming m)) t m)
                         (concat mss) PrimFloat.zero)].
Proof.
  destruct (main_prints [on_X 1 "B" 10 50; on_X 3 "S" 12 60]
              [header; "1,3,X,50,100.00,B,S,10.00,12.00"; "100.00"])
    as (mss & Hl & _ & Hout & _).
  - vm_compute. reflexivity.
  - exists mss. split; assumption.
Defined.

(** ** Trades of positive quantity *)

Lemma matches_from_proper (ms : list trade) :
  forall (pending : list Order) (order : Order),
    Forall (fun o => 0 < QUANTITY o) pending -> 0 <= QUANTITY order ->
    matches_from pending order ms -> Forall proper ms.
Proof.
  induction ms as [|m ms IH]; intros [|head rest] order Hpos Hq H;
    try contradiction; constructor; simpl in H;
    destruct H as (Hnz & Hr & Hi & Hm & _ & H);
    apply Forall_cons in Hpos as [Hh Hrest].
  - unfold proper. rewrite Hr, Hi, Hm. lia.
  - apply (IH rest (sub_QUANTITY order (matched m))); [assumption| |assumption].
    rewrite Hm. cbn. lia.
Qed.

Lemma ledger_of_proper (orders : list Order) :
  forall (self : OrderManagementSystem) (mss : list (list trade)),
    positive_backlogs self -> Forall (fun o => 0 < QUANTITY o) orders ->
    ledger_of self orders mss -> Forall proper (concat mss).
Proof.
  induction orders as [|order orders IH]; intros self [|ms mss] Hpos HF H;
    try contradiction; [constructor|].
  simpl in H. destruct H as (Hms & self1 & Hp & H).
  apply Forall_cons in HF as [Hq HF].
  simpl. apply Forall_app. split.
  - apply (matches_from_proper ms (backlog self (SYMBOL order)) order);
      [apply Hpos|lia|assumption].
  - apply (IH self1); [|assumption|assumption].
    now apply (place_order_positive self self1 order (map trade_line ms)).
Qed.

(** X12: on orders of positive quantity, every trade that a run prints is
    for a positive quantity, no larger than what the resting order has as
    it rests in the backlog and no larger than what is left of the
    incoming order.  The trades are the matches of the run, call by call,
    one for each line. *)
Theorem trades_proper (orders : list Order) (self' : OrderManagementSystem)
    (lines : list string) :
  Forall (fun o => 0 < QUANTITY o) orders ->
  place_orders init orders = Ok (self', lines) ->
  (exists mss, ledger_of init orders mss /\ lines = map trade_line (concat mss)) /\
  (forall mss, ledger_of init orders mss -> Forall proper (concat mss)).
Proof.
  intros HF Hp. split.
  - destruct (place_orders_ledger _ _ _ _ Hp) as (mss & Hl & Hlines & _). eauto.
  - intros mss. now apply ledger_of_proper; [apply positive_backlogs_init|].
Qed.

Lemma trades_proper_witness :
  exists mss,
    ledger_of init [on_X 1 "B" 10 50; on_X 3 "S" 12 60] mss /\
    ["1,3,X,50,100.00,B,S,10.00,12.00"] = map trade_line (concat mss) /\
    Forall proper (concat mss).
Proof.
  destruct (trades_proper [on_X 1 "B" 10 50; on_X 3 "S" 12 60]
              (with_X [on_X 3 "S" 12 10] 100)
              ["1,3,X,50,100.00,B,S,10.00,12.00"])
    as [(mss & Hl & Hlines) Hproper].
  - repeat constructor.
  - vm_compute. reflexivity.
  - exists mss. split; [exact Hl|]. split; [exact Hlines|now apply Hproper].
Defined.

(** ** What rests is the net position *)

Lemma sum_quantities_positive (o : Order) (pending : list Order) :
  Forall (fun o => 0 < QUANTITY o) (o :: pending) ->
  0 < sum_quantities (o :: pending).
Proof.
  revert o. induction pending as [|o' pending IH]; intros o HF;
    apply Forall_cons in HF as [Ho HF]; cbn [sum_quantities] in *.
  - lia.
  - specialize (IH o' HF). cbn [sum_quantities] in IH. lia.
Qed.

(** X13: on buy and sell orders of positive quantity, what a run leaves
    resting under a symbol is the net position in it: the resting
    quantities add up to the absolute value of the net position, the
    backlog is empty when buys and sells balance, and the resting orders
    are buys when the position is long and sells when it is short. *)
Theorem resting_is_net_position (orders : list Order)
    (self' : OrderManagementSystem) (lines : list string) (symbol : string) :
  Forall buy_or_sell orders ->
  Forall (fun o => 0 < QUANTITY o) orders ->
  place_orders init orders = Ok (self', lines) ->
  let net := position (on_symbol symbol orders) in
  sum_quantities (backlog self' symbol) = Z.abs net /\
  (net = 0 -> backlog self' symbol = []) /\
  (0 < net -> Forall (fun o => SIDE o = "B") (backlog self' symbol)) /\
  (net < 0 -> Forall (fun o => SIDE o = "S") (backlog self' symbol)).
Proof.
  intros Hbs Hq Hp.
  destruct (place_orders_position orders init self' lines side_pure_init
              (fun s => Forall_nil_2 _) Hbs Hp symbol) as [Hnet Hbs'].
  rewrite backlog_init in Hnet. cbn [position] in Hnet. rewrite Z.add_0_l in Hnet.
  rewrite <- Hnet. clear Hnet.
  pose proof (place_orders_positive orders init self' lines
                positive_backlogs_init Hq Hp symbol) as Hpos.
  destruct (place_orders_side_pure orders init self' lines side_pure_init Hp symbol)
    as [side Hside].
  destruct (backlog self' symbol) as [|o pending] eqn:Hb; cbn zeta.
  - cbn. repeat split; try constructor; lia.
  - pose proof (sum_quantities_positive o pending Hpos) as Hsum.
    rewrite (position_one_side side _ Hside).
    assert (Ho : buy_or_sell o) by now apply Forall_cons in Hbs' as [? _].
    assert (Hs : SIDE o = side) by now apply Forall_cons in Hside as [? _].
    destruct Ho as [Ho|Ho]; rewrite Ho in Hs; subst side;
      cbn [String.eqb Ascii.eqb Bool.eqb];
      (split; [lia|]); (split; [intros; lia|]); split; intros;
      solve [assumption|lia].
Qed.

Lemma resting_is_net_position_witness :
  sum_quantities (backlog (with_X [on_X 3 "S" 12 10] 100) "X")
  = Z.abs (position (on_symbol "X" [on_X 1 "B" 10 50; on_X 3 "S" 12 60])).
Proof.
  apply (resting_is_net_position [on_X 1 "B" 10 50; on_X 3 "S" 12 60]
           (with_X [on_X 3 "S" 12 10] 100)
           ["1,3,X,50,100.00,B,S,10.00,12.00"] "X").
  - constructor; [now left|]. constructor; [now right|]. constructor.
  - repeat constructor.
  - vm_compute. reflexivity.
Defined.
